(** * EV charging network client: trust boundary and navigation coordinator

    A shallow embedding of the TypeScript sources

    - [App.tsx]: the navigation state machine and the session state
      (module [App]);
    - [MapView.tsx], in two variants: the one that validates and sanitizes
      (module [MapViewHardened]) and the one of [src/components], which
      does neither (module [MapView]);
    - [StationDetails.tsx], in two variants: the one whose
      [handleGetDirections] checks the coordinates (module
      [StationDetailsGuarded]) and the one that interpolates them raw
      (module [StationDetailsRaw]);

    together with the part of the JavaScript platform these functions call
    ([typeof], [String], [parseFloat], [isNaN], [encodeURIComponent],
    [decodeURIComponent], [toLowerCase], [includes], and the DOM
    [textContent]/[innerHTML] pair).

    Conventions of the model.

    - A JavaScript string is a Rocq [string] holding its UTF-8 bytes.
    - A JavaScript number is NaN, a signed infinity, or a signed decimal
      [m * 10^e]; this is the decimal that [Number::toString] prints.
      Rounding of long literals to binary64 is not modelled.
    - Station records come from an untrusted feed: every field is a dynamic
      [value], whatever the TypeScript interface says.
    - A handler that talks to the outside world returns the list of effects
      it performs, in order.
    - [String(v)] and [Number(v)] throw a TypeError on an object that holds
      an own property [toString] (and on an array that holds such an
      object).  [Js.to_string] is the string [String(v)] returns and
      [Js.to_string_throws] tells when it throws instead; [ToString] puts
      the two together.  Module [WithTypeError] gives the functions that
      are handed unvalidated values with that completion.
    - [toLowerCase] and [toUpperCase] map the ASCII letters; statements
      that depend on the case mapping are made for ASCII text. *)

From Stdlib Require Import ZArith NArith List Bool Ascii String Lia.
From Stdlib Require Import Decimal DecimalString DecimalN QArith Qpower.
Import ListNotations.

Local Open Scope string_scope.
Local Open Scope Z_scope.

#[local] Set Warnings "-register-all".

(** ** JavaScript values *)

Module Js.

(** [number]: NaN, +-Infinity, or [(-1)^neg * m * 10^e].  [m = 0] is a
    (signed) zero. *)
Inductive number : Type :=
| NaN
| Infinity (neg : bool)
| Finite (neg : bool) (m : N) (e : Z).

Inductive value : Type :=
| VUndefined
| VNull
| VBool (b : bool)
| VNumber (n : number)
| VString (s : string)
| VArray (elems : list value)
| VObject (fields : list (string * value)).

(** [typeof v] *)
Definition typeof (v : value) : string :=
  match v with
  | VUndefined => "undefined"
  | VNull => "object"
  | VBool _ => "boolean"
  | VNumber _ => "number"
  | VString _ => "string"
  | VArray _ => "object"
  | VObject _ => "object"
  end.

(** [Array.isArray(v)] *)
Definition isArray (v : value) : bool :=
  match v with
  | VArray _ => true
  | _ => false
  end.

(** [v1 === v2] restricted to a string on the right, as used by
    [Array.prototype.includes] over an array of string literals. *)
Definition strict_eq_string (v : value) (s : string) : bool :=
  match v with
  | VString t => String.eqb t s
  | _ => false
  end.

(** [arr.includes(v)] for an array literal of strings. *)
Definition includes_strings (arr : list string) (v : value) : bool :=
  existsb (strict_eq_string v) arr.

(** [s.startsWith(p)] *)
Fixpoint starts_with (p s : string) : bool :=
  match p, s with
  | "", _ => true
  | String a p', String b s' => Ascii.eqb a b && starts_with p' s'
  | String _ _, "" => false
  end.

(** *** Numbers: comparison *)

(** The signed integer [sgn * m * 10^(e - lo)], used to compare two finite
    numbers once both are scaled to the common exponent [lo]. *)
Definition scaled (neg : bool) (m : N) (e lo : Z) : Z :=
  let a := Z.of_N m * 10 ^ (e - lo) in
  if neg then - a else a.

(** [x < y] on numbers (false as soon as one side is NaN). *)
Definition ltb (x y : number) : bool :=
  match x, y with
  | NaN, _ | _, NaN => false
  | Infinity nx, Infinity ny => nx && negb ny
  | Infinity nx, Finite _ _ _ => nx
  | Finite _ _ _, Infinity ny => negb ny
  | Finite nx mx ex, Finite ny my ey =>
      let lo := Z.min ex ey in
      scaled nx mx ex lo <? scaled ny my ey lo
  end.

Definition gtb (x y : number) : bool := ltb y x.

(** [isNaN(x)] for a number argument. *)
Definition isNaN (x : number) : bool :=
  match x with
  | NaN => true
  | _ => false
  end.

(** Number literals of the sources. *)
Definition of_Z (z : Z) : number :=
  Finite (z <? 0) (Z.abs_N z) 0.

(** *** Numbers: [Number::toString] *)

(** Decimal digits of a natural number, most significant first. *)
Definition digits_of_N (m : N) : string :=
  NilEmpty.string_of_uint (N.to_uint m).

Fixpoint repeat_zero (n : nat) : string :=
  match n with
  | O => ""
  | S k => String "0" (repeat_zero k)
  end.

(** Removes the trailing zeros of a reversed digit string and counts them. *)
Fixpoint strip_zeros_rev (rev_digits : string) (count : Z) : string * Z :=
  match rev_digits with
  | String "0" rest => strip_zeros_rev rest (count + 1)
  | _ => (rev_digits, count)
  end.

Fixpoint rev_string (s acc : string) : string :=
  match s with
  | "" => acc
  | String c rest => rev_string rest (String c acc)
  end.

(** The integers [s] (as a digit string), [k] and [n] of
    [Number::toString]: [k] digits, no trailing zero, value
    [s * 10^(n - k)]. *)
Definition shortest (m : N) (e : Z) : string * Z * Z :=
  let (r, z) := strip_zeros_rev (rev_string (digits_of_N m) "") 0 in
  let s := rev_string r "" in
  let k := Z.of_nat (String.length s) in
  (s, k, e + z + k).

(** The first [n] characters of [s], and the rest. *)
Fixpoint take (n : nat) (s : string) : string :=
  match n, s with
  | S k, String c rest => String c (take k rest)
  | _, _ => ""
  end.

Fixpoint drop (n : nat) (s : string) : string :=
  match n, s with
  | S k, String _ rest => drop k rest
  | _, _ => s
  end.

(** [Number::toString(x)] for a positive finite [x = m * 10^e]. *)
Definition positive_to_string (m : N) (e : Z) : string :=
  let '(s, k, n) := shortest m e in
  if (k <=? n) && (n <=? 21) then
    s ++ repeat_zero (Z.to_nat (n - k))
  else if (0 <? n) && (n <=? 21) then
    take (Z.to_nat n) s ++ "." ++ drop (Z.to_nat n) s
  else if (-6 <? n) && (n <=? 0) then
    "0." ++ repeat_zero (Z.to_nat (- n)) ++ s
  else
    let expo := (if n - 1 <? 0 then "-" else "+") ++ digits_of_N (Z.abs_N (n - 1)) in
    if k =? 1 then s ++ "e" ++ expo
    else take 1 s ++ "." ++ drop 1 s ++ "e" ++ expo.

Definition number_to_string (x : number) : string :=
  match x with
  | NaN => "NaN"
  | Infinity false => "Infinity"
  | Infinity true => "-Infinity"
  | Finite neg m e =>
      if N.eqb m 0 then "0"
      else (if neg then "-" else "") ++ positive_to_string m e
  end.

(** *** [String(v)]

    [to_string v] is the string that [String(v)] returns, and
    [to_string_throws v] tells when [String(v)] throws a TypeError
    instead of returning. *)

Fixpoint join (sep : string) (parts : list string) : string :=
  match parts with
  | [] => ""
  | [p] => p
  | p :: rest => p ++ sep ++ join sep rest
  end.

Fixpoint to_string (v : value) : string :=
  match v with
  | VUndefined => "undefined"
  | VNull => "null"
  | VBool true => "true"
  | VBool false => "false"
  | VNumber n => number_to_string n
  | VString s => s
  | VArray elems =>
      join "," (map (fun e => match e with
                              | VUndefined | VNull => ""
                              | _ => to_string e
                              end) elems)
  | VObject _ => "[object Object]"
  end.

(** An object of the feed is turned into a primitive by the [toString] it
    inherits, which gives ["[object Object]"], unless it holds an own
    property of that name: the feed holds no function, so that property is
    not callable, the inherited [valueOf] returns the object itself, and
    the conversion throws a TypeError.  An array is joined, which converts
    each of its elements but [null] and [undefined]. *)
Fixpoint to_string_throws (v : value) : bool :=
  match v with
  | VObject fields => existsb (fun kv => String.eqb (fst kv) "toString") fields
  | VArray elems =>
      existsb (fun e => match e with
                        | VUndefined | VNull => false
                        | _ => to_string_throws e
                        end) elems
  | _ => false
  end.

(** *** [parseFloat] *)

Definition code (c : ascii) : N := N_of_ascii c.

Definition is_digit (c : ascii) : bool :=
  (48 <=? code c)%N && (code c <=? 57)%N.

(** Longest prefix of decimal digits, and what follows it. *)
Fixpoint span_digits (s : string) : string * string :=
  match s with
  | String c rest =>
      if is_digit c then
        let (ds, tl) := span_digits rest in (String c ds, tl)
      else ("", s)
  | "" => ("", "")
  end.

Fixpoint digits_value (acc : N) (ds : string) : N :=
  match ds with
  | String c rest => digits_value (acc * 10 + (code c - 48))%N rest
  | "" => acc
  end.

(** WhiteSpace and LineTerminator code points, by their UTF-8 bytes:
    one byte (TAB LF VT FF CR SP), two bytes (U+00A0), three bytes
    (U+1680, U+2000..U+200A, U+2028, U+2029, U+202F, U+205F, U+3000,
    U+FEFF). *)
Definition ws1 (a : ascii) : bool :=
  ((9 <=? code a) && (code a <=? 13))%N || (code a =? 32)%N.

Definition ws2 (a b : ascii) : bool :=
  ((code a =? 194) && (code b =? 160))%N.

Definition ws3 (a b c : ascii) : bool :=
  let x := code a in
  let y := code b in
  let z := code c in
  (((x =? 225) && (y =? 154) && (z =? 128))
   || ((x =? 226) && (y =? 128)
       && (((128 <=? z) && (z <=? 138)) || (z =? 168) || (z =? 169) || (z =? 175)))
   || ((x =? 226) && (y =? 129) && (z =? 159))
   || ((x =? 227) && (y =? 128) && (z =? 128))
   || ((x =? 239) && (y =? 187) && (z =? 191)))%N.

(** [TrimString(s, start)] *)
Fixpoint trim_start (s : string) : string :=
  match s with
  | "" => ""
  | String a r1 =>
      if ws1 a then trim_start r1
      else
        match r1 with
        | String b r2 =>
            if ws2 a b then trim_start r2
            else
              match r2 with
              | String c r3 => if ws3 a b c then trim_start r3 else s
              | "" => s
              end
        | "" => s
        end
  end.

(** An [ExponentPart] at the head of [s], if there is a complete one:
    its value.  An incomplete one ("e", "e+") is not part of the literal. *)
Definition exponent_part (s : string) : Z :=
  match s with
  | String c rest =>
      if Ascii.eqb c "e" || Ascii.eqb c "E" then
        match rest with
        | String "-" r =>
            let (ds, _) := span_digits r in
            - Z.of_N (digits_value 0 ds)
        | String "+" r =>
            let (ds, _) := span_digits r in
            Z.of_N (digits_value 0 ds)
        | _ =>
            let (ds, _) := span_digits rest in
            Z.of_N (digits_value 0 ds)
        end
      else 0
  | "" => 0
  end.

(** Longest prefix of [s] that is a [StrUnsignedDecimalLiteral] other than
    [Infinity]: mantissa and decimal exponent of its value. *)
Definition parse_unsigned (s : string) : option (N * Z) :=
  let (ip, r1) := span_digits s in
  let (fp, r2) :=
    match r1 with
    | String "." r => span_digits r
    | _ => ("", r1)
    end in
  if String.eqb ip "" && String.eqb fp "" then None
  else
    Some (digits_value 0 (ip ++ fp),
          exponent_part r2 - Z.of_nat (String.length fp)).

(** [parseFloat(s)] for a string argument. *)
Definition parseFloat (input : string) : number :=
  let s := trim_start input in
  let (neg, body) :=
    match s with
    | String "-" r => (true, r)
    | String "+" r => (false, r)
    | _ => (false, s)
    end in
  if starts_with "Infinity" body then Infinity neg
  else
    match parse_unsigned body with
    | Some (m, e) => Finite neg m e
    | None => NaN
    end.

(** *** [encodeURIComponent] and [decodeURIComponent] *)

Definition is_alpha (c : ascii) : bool :=
  (((65 <=? code c) && (code c <=? 90)) || ((97 <=? code c) && (code c <=? 122)))%N.

(** uriUnreserved: letters, digits and the marks [- _ . ! ~ * ' ( )]. *)
Definition unreserved (c : ascii) : bool :=
  is_alpha c || is_digit c
  || existsb (Ascii.eqb c) ["-"; "_"; "."; "!"; "~"; "*"; "'"; "("; ")"]%char.

Definition hex_digit (n : N) : ascii :=
  if (n <? 10)%N then ascii_of_N (48 + n) else ascii_of_N (55 + n).

Definition hex_value (c : ascii) : option N :=
  let n := code c in
  if is_digit c then Some (n - 48)%N
  else if ((65 <=? n) && (n <=? 70))%N then Some (n - 55)%N
  else if ((97 <=? n) && (n <=? 102))%N then Some (n - 87)%N
  else None.

(** Each byte of the UTF-8 form is kept if unreserved, else written %XX. *)
Fixpoint encodeURIComponent (s : string) : string :=
  match s with
  | "" => ""
  | String c rest =>
      if unreserved c then String c (encodeURIComponent rest)
      else
        String "%" (String (hex_digit (code c / 16))
                      (String (hex_digit (code c mod 16))
                         (encodeURIComponent rest)))
  end.

(** [None] is the URIError thrown at a malformed escape.  The check that
    decoded bytes above 127 form well-formed UTF-8 is not modelled. *)
Fixpoint decodeURIComponent (s : string) : option string :=
  match s with
  | "" => Some ""
  | String c rest =>
      if Ascii.eqb c "%" then
        match rest with
        | String h (String l rest') =>
            match hex_value h, hex_value l, decodeURIComponent rest' with
            | Some x, Some y, Some r => Some (String (ascii_of_N (16 * x + y)) r)
            | _, _, _ => None
            end
        | _ => None
        end
      else
        match decodeURIComponent rest with
        | Some r => Some (String c r)
        | None => None
        end
  end.

(** *** [toLowerCase] and [includes] on strings *)

(** Case mapping of the ASCII letters; bytes of other characters are kept,
    so this is [toLowerCase] on ASCII text. *)
Definition lower (c : ascii) : ascii :=
  if ((65 <=? code c) && (code c <=? 90))%N then ascii_of_N (code c + 32) else c.

Fixpoint toLowerCase (s : string) : string :=
  match s with
  | "" => ""
  | String c rest => String (lower c) (toLowerCase rest)
  end.

(** [s.includes(sub)] *)
Fixpoint includes (s sub : string) : bool :=
  starts_with sub s ||
  match s with
  | "" => false
  | String _ rest => includes rest sub
  end.

End Js.

(** ** The DOM calls of [sanitizeText] *)

Module Dom.

(** Children of an element.  [sanitizeText] only ever creates text nodes. *)
Inductive node : Type :=
| Text (data : string).

(** [document.createElement('div')]: no children. *)
Definition createElement : list node := [].

(** [el.textContent = str]: all children are replaced by one text node,
    or by none when [str] is empty. *)
Definition set_textContent (str : string) (children : list node) : list node :=
  if String.eqb str "" then [] else [Text str].

(** Escaping of text node data in the HTML fragment serialization
    algorithm: [&], U+00A0 (bytes C2 A0), [<] and [>] are replaced. *)
Fixpoint escape (s : string) : string :=
  match s with
  | "" => ""
  | String c rest =>
      if Ascii.eqb c "&" then "&amp;" ++ escape rest
      else if Ascii.eqb c "<" then "&lt;" ++ escape rest
      else if Ascii.eqb c ">" then "&gt;" ++ escape rest
      else
        match rest with
        | String d rest' =>
            if Ascii.eqb c "194" && Ascii.eqb d "160"
            then "&nbsp;" ++ escape rest'
            else String c (escape rest)
        | "" => String c ""
        end
  end.

Definition serialize (n : node) : string :=
  match n with
  | Text data => escape data
  end.

(** [el.innerHTML] (getter) *)
Definition innerHTML (children : list node) : string :=
  String.concat "" (map serialize children).

(** The text a sink shows for [el.innerHTML = html] when [html] holds no
    tag: the character references the serializer emits are decoded, any
    other character is data.  [skip] counts the characters of a reference
    still to be passed over. *)
Fixpoint rendered_from (skip : nat) (html : string) : string :=
  match html with
  | "" => ""
  | String c rest =>
      match skip with
      | S k => rendered_from k rest
      | O =>
          if Ascii.eqb c "&" then
            if Js.starts_with "amp;" rest then String "&" (rendered_from 4 rest)
            else if Js.starts_with "lt;" rest then String "<" (rendered_from 3 rest)
            else if Js.starts_with "gt;" rest then String ">" (rendered_from 3 rest)
            else if Js.starts_with "nbsp;" rest
                 then String "194" (String "160" (rendered_from 5 rest))
            else String c (rendered_from 0 rest)
          else String c (rendered_from 0 rest)
      end
  end.

Definition rendered_text (html : string) : string := rendered_from 0 html.

End Dom.

(** ** Data model *)

Import Js.

(** [interface ChargingStation], as received: the declared field types are
    not enforced at run time, so each field holds an arbitrary value (a
    missing field reads [VUndefined]). *)
Record ChargingStation : Type := {
  id : value;
  name : value;
  address : value;
  lat : value;
  lng : value;
  available : value;
  total : value;
  cost : value;
  amenities : value;
  status : value
}.

(** Effects on the outside world. *)
Inductive Effect : Type :=
| ConsoleLog (args : list string)
| ConsoleError (message : string)
| WindowOpen (url target : string).

(** Completion of code that may throw. *)
Inductive result (A : Type) : Type :=
| Ok (a : A)
| Throw (error : string).

Arguments Ok {A} a.
Arguments Throw {A} error.

Definition bind {A B : Type} (r : result A) (k : A -> result B) : result B :=
  match r with
  | Ok a => k a
  | Throw e => Throw e
  end.

Notation "x <- r ;; k" := (bind r (fun x => k))
  (at level 61, r at next level, right associativity).

(** [l.filter(p)] for a callback that may throw. *)
Fixpoint filter_r {A : Type} (p : A -> result bool) (l : list A) : result (list A) :=
  match l with
  | [] => Ok []
  | x :: rest =>
      b <- p x ;;
      kept <- filter_r p rest ;;
      Ok (if b then x :: kept else kept)
  end.

(** [l.map(f)] for a callback that may throw. *)
Fixpoint map_r {A B : Type} (f : A -> result B) (l : list A) : result (list B) :=
  match l with
  | [] => Ok []
  | x :: rest =>
      y <- f x ;;
      ys <- map_r f rest ;;
      Ok (y :: ys)
  end.

(** [String(v)], with its TypeError. *)
Definition ToString (v : value) : result string :=
  if to_string_throws v then Throw "TypeError" else Ok (to_string v).

(** [v.toLowerCase()]: a TypeError unless [v] is a string. *)
Definition call_toLowerCase (v : value) : result string :=
  match v with
  | VString s => Ok (toLowerCase s)
  | _ => Throw "TypeError"
  end.

(** What a JSX element shows: markup given through
    [dangerouslySetInnerHTML], or a child value that React renders as
    text. *)
Inductive content : Type :=
| Html (html : string)
| Child (v : value).

(** A [<Marker>] with its popup, and a station card of the list. *)
Record Marker : Type := {
  marker_key : value;
  position : value * value;
  icon_color : string;
  popup_name : content;
  popup_address : content;
  popup_status : content;
  view_details : ChargingStation
}.

Record Card : Type := {
  card_key : value;
  card_name : content;
  card_address : content;
  status_class : string;
  status_text : string;
  amenity_tags : list content;
  more_amenities : option Z;
  card_click : ChargingStation
}.

(** [getStatusColor] and [getStatusText] of both MapView variants. *)
Definition getStatusColor (status : value) : string :=
  if strict_eq_string status "available" then "text-green-600"
  else if strict_eq_string status "busy" then "text-orange-500"
  else if strict_eq_string status "offline" then "text-red-500"
  else "text-gray-500".

Definition getStatusText (status : value) : string :=
  if strict_eq_string status "available" then "Available"
  else if strict_eq_string status "busy" then "Busy"
  else if strict_eq_string status "offline" then "Offline"
  else "Unknown".

(** [station.amenities.slice(0, 3).map(f)] and the "+n more" tag: a
    TypeError unless [amenities] is an array. *)
Definition amenity_section (f : value -> content) (amenities : value)
  : result (list content * option Z) :=
  match amenities with
  | VArray elems =>
      Ok (map f (firstn 3 elems),
          if 3 <? Z.of_nat (List.length elems)
          then Some (Z.of_nat (List.length elems) - 3) else None)
  | _ => Throw "TypeError"
  end.

(** ** MapView, hardened variant (validates and sanitizes) *)

Module MapViewHardened.

(** [createStationIcon]: the marker colour; a status outside the white
    list is treated as ['offline']. *)
Definition createStationIcon (status : value) : string :=
  let validStatuses := ["available"; "busy"; "offline"] in
  let safeStatus :=
    if includes_strings validStatuses status then status else VString "offline" in
  if strict_eq_string safeStatus "available" then "#10B981"
  else if strict_eq_string safeStatus "busy" then "#F59E0B"
  else "#EF4444".

(** The string [sanitizeText] returns; [WithTypeError.sanitizeText] adds
    the TypeError of [String(text)]. *)
Definition sanitizeText (text : value) : string :=
  let str := to_string text in
  let div := Dom.createElement in
  let div := Dom.set_textContent str div in
  Dom.innerHTML div.

Definition validateStation (station : ChargingStation) : bool :=
  String.eqb (typeof station.(id)) "string" &&
  String.eqb (typeof station.(name)) "string" &&
  String.eqb (typeof station.(address)) "string" &&
  String.eqb (typeof station.(lat)) "number" &&
  String.eqb (typeof station.(lng)) "number" &&
  String.eqb (typeof station.(available)) "number" &&
  String.eqb (typeof station.(total)) "number" &&
  String.eqb (typeof station.(cost)) "number" &&
  isArray station.(amenities) &&
  includes_strings ["available"; "busy"; "offline"] station.(status).

(** The search predicate of [filteredStations]; [||] evaluates its right
    operand only when the left one is false. *)
Definition matches (query : string) (station : ChargingStation) : result bool :=
  n <- call_toLowerCase station.(name) ;;
  if includes n query then Ok true
  else
    a <- call_toLowerCase station.(address) ;;
    Ok (includes a query).

Definition filteredStations (stations : list ChargingStation) (searchQuery : string)
  : result (list ChargingStation) :=
  let sanitizedSearchQuery := toLowerCase (sanitizeText (VString searchQuery)) in
  filter_r (matches sanitizedSearchQuery) (filter validateStation stations).

(** The station markers handed to the map. *)
Definition marker (station : ChargingStation) : Marker :=
  let safeName := sanitizeText station.(name) in
  let safeAddress := sanitizeText station.(address) in
  let safeStatus := sanitizeText station.(status) in
  {| marker_key := station.(id);
     position := (station.(lat), station.(lng));
     icon_color := createStationIcon station.(status);
     popup_name := Html safeName;
     popup_address := Html safeAddress;
     popup_status := Html safeStatus;
     view_details := station |}.

Definition markers (stations : list ChargingStation) : list Marker :=
  map marker (filter validateStation stations).

(** The cards of the station list, as they are built when no conversion
    throws; [WithTypeError.card] adds the TypeError of [String] and
    [Number]. *)
Definition card (station : ChargingStation) : result Card :=
  let safeName := sanitizeText station.(name) in
  let safeAddress := sanitizeText station.(address) in
  tags <- amenity_section (fun amenity => Html (sanitizeText amenity)) station.(amenities) ;;
  Ok {| card_key := station.(id);
        card_name := Html safeName;
        card_address := Html safeAddress;
        status_class := getStatusColor station.(status);
        status_text := getStatusText station.(status);
        amenity_tags := fst tags;
        more_amenities := snd tags;
        card_click := station |}.

Definition cards (stations : list ChargingStation) (searchQuery : string)
  : result (list Card) :=
  shown <- filteredStations stations searchQuery ;;
  map_r card shown.

End MapViewHardened.

(** ** MapView, original variant ([src/components/MapView.tsx]) *)

Module MapView.

Definition createStationIcon (status : value) : string :=
  if strict_eq_string status "available" then "#10B981"
  else if strict_eq_string status "busy" then "#F59E0B"
  else "#EF4444".

Definition matches (query : string) (station : ChargingStation) : result bool :=
  n <- call_toLowerCase station.(name) ;;
  if includes n query then Ok true
  else
    a <- call_toLowerCase station.(address) ;;
    Ok (includes a query).

Definition filteredStations (stations : list ChargingStation) (searchQuery : string)
  : result (list ChargingStation) :=
  filter_r (matches (toLowerCase searchQuery)) stations.

Definition marker (station : ChargingStation) : Marker :=
  {| marker_key := station.(id);
     position := (station.(lat), station.(lng));
     icon_color := createStationIcon station.(status);
     popup_name := Child station.(name);
     popup_address := Child station.(address);
     popup_status := Child station.(status);
     view_details := station |}.

Definition markers (stations : list ChargingStation) : list Marker :=
  map marker stations.

Definition card (station : ChargingStation) : result Card :=
  tags <- amenity_section Child station.(amenities) ;;
  Ok {| card_key := station.(id);
        card_name := Child station.(name);
        card_address := Child station.(address);
        status_class := getStatusColor station.(status);
        status_text := getStatusText station.(status);
        amenity_tags := fst tags;
        more_amenities := snd tags;
        card_click := station |}.

Definition cards (stations : list ChargingStation) (searchQuery : string)
  : result (list Card) :=
  shown <- filteredStations stations searchQuery ;;
  map_r card shown.

End MapView.

(** ** StationDetails *)

Definition directions_base : string := "https://maps.google.com/?q=".

(** The charge button: [disabled={station.status !== 'available'}]. *)
Definition charge_button_disabled (station : ChargingStation) : bool :=
  negb (strict_eq_string station.(status) "available").

(** Guarded variant (first [StationDetails]). *)
Module StationDetailsGuarded.

Definition sanitizeText (text : value) : string :=
  let str := to_string text in
  let div := Dom.createElement in
  let div := Dom.set_textContent str div in
  Dom.innerHTML div.

(** The test of the [if] in [handleGetDirections]. *)
Definition invalid_coordinates (lat lng : number) : bool :=
  isNaN lat || isNaN lng
  || ltb lat (of_Z (-90)) || gtb lat (of_Z 90)
  || ltb lng (of_Z (-180)) || gtb lng (of_Z 180).

Definition handleGetDirections (station : ChargingStation) : list Effect :=
  let lat := parseFloat (to_string station.(lat)) in
  let lng := parseFloat (to_string station.(lng)) in
  if invalid_coordinates lat lng then
    [ConsoleError "Invalid coordinates"]
  else
    let url := directions_base
               ++ encodeURIComponent (number_to_string lat) ++ ","
               ++ encodeURIComponent (number_to_string lng) in
    [WindowOpen url "_blank"].

End StationDetailsGuarded.

(** Raw variant (second [StationDetails]). *)
Module StationDetailsRaw.

Definition handleGetDirections (station : ChargingStation) : list Effect :=
  let url := directions_base
             ++ to_string station.(lat) ++ ","
             ++ to_string station.(lng) in
  [WindowOpen url "_blank"].

End StationDetailsRaw.

(** Every function of the program that opens a directions URL. *)
Definition directions_handlers : list (ChargingStation -> list Effect) :=
  [StationDetailsGuarded.handleGetDirections; StationDetailsRaw.handleGetDirections].

(** ** App: navigation state machine and session state *)

Module App.

(** [type View = 'map' | 'details' | 'scanner' | 'profile'] *)
Inductive View : Type :=
| View_map
| View_details
| View_scanner
| View_profile.

(** The three [useState] cells of [App]. *)
Record AppState : Type := {
  currentView : View;
  selectedStation : option ChargingStation;
  isCharging : bool
}.

Definition initial : AppState :=
  {| currentView := View_map; selectedStation := None; isCharging := false |}.

Definition setCurrentView (v : View) (st : AppState) : AppState :=
  {| currentView := v;
     selectedStation := st.(selectedStation);
     isCharging := st.(isCharging) |}.

Definition setSelectedStation (s : option ChargingStation) (st : AppState) : AppState :=
  {| currentView := st.(currentView);
     selectedStation := s;
     isCharging := st.(isCharging) |}.

Definition setIsCharging (b : bool) (st : AppState) : AppState :=
  {| currentView := st.(currentView);
     selectedStation := st.(selectedStation);
     isCharging := b |}.

(** The mock feed of [App]. *)
Definition stations : list ChargingStation :=
  [ {| id := VString "1"; name := VString "Downtown Plaza";
       address := VString "123 Main St, Miami, FL";
       lat := VNumber (Finite false 257617 (-4));
       lng := VNumber (Finite true 801918 (-4));
       available := VNumber (of_Z 3); total := VNumber (of_Z 4);
       cost := VNumber (Finite false 35 (-2));
       amenities := VArray [VString "Restaurant"; VString "WiFi"; VString "Restroom"];
       status := VString "available" |};
    {| id := VString "2"; name := VString "Airport Terminal";
       address := VString "2100 NW 42nd Ave, Miami, FL";
       lat := VNumber (Finite false 257959 (-4));
       lng := VNumber (Finite true 80287 (-3));
       available := VNumber (of_Z 0); total := VNumber (of_Z 6);
       cost := VNumber (Finite false 42 (-2));
       amenities := VArray [VString "Food Court"; VString "Shopping"];
       status := VString "busy" |};
    {| id := VString "3"; name := VString "Beach Resort";
       address := VString "1701 Collins Ave, Miami Beach, FL";
       lat := VNumber (Finite false 257907 (-4));
       lng := VNumber (Finite true 8013 (-2));
       available := VNumber (of_Z 2); total := VNumber (of_Z 3);
       cost := VNumber (Finite false 38 (-2));
       amenities := VArray [VString "Hotel"; VString "Restaurant"; VString "Valet"];
       status := VString "available" |} ].

(** The handlers. *)
Definition handleStationSelect (station : ChargingStation) (st : AppState) : AppState :=
  setCurrentView View_details (setSelectedStation (Some station) st).

Definition handleStartCharging (st : AppState) : AppState :=
  setCurrentView View_scanner st.

Definition handleQRScan (scanned : string) (st : AppState) : AppState * list Effect :=
  (setCurrentView View_map (setIsCharging true st),
   [ConsoleLog ["QR Code scanned:"; scanned]]).

(** What the user and the scanner can do to the rendered tree. *)
Inductive event : Type :=
| NavFind
| NavScan
| NavProfile
| SelectStation (i : nat)
| ClickCharge
| DetailsBack
| ScanResult (payload : string)
| ScannerBack
| ProfileBack.

Section Dispatch.

(** The stations for which the mounted MapView renders a control that
    calls [onStationSelect], in rendering order. *)
Variable offered : list ChargingStation.

(** One event on the tree that [renderView] and the bottom navigation
    build from the state.  An event aimed at a control that is not
    rendered, or at a disabled button, changes nothing. *)
Definition dispatch (ev : event) (st : AppState) : AppState * list Effect :=
  match ev with
  | NavFind => (setCurrentView View_map st, [])
  | NavScan => (setCurrentView View_scanner st, [])
  | NavProfile => (setCurrentView View_profile st, [])
  | SelectStation i =>
      match st.(currentView), nth_error offered i with
      | View_map, Some station => (handleStationSelect station st, [])
      | _, _ => (st, [])
      end
  | ClickCharge =>
      match st.(currentView), st.(selectedStation) with
      | View_details, Some station =>
          if charge_button_disabled station then (st, [])
          else (handleStartCharging st, [])
      | _, _ => (st, [])
      end
  | DetailsBack =>
      match st.(currentView), st.(selectedStation) with
      | View_details, Some _ => (setCurrentView View_map st, [])
      | _, _ => (st, [])
      end
  | ScanResult payload =>
      match st.(currentView) with
      | View_scanner => handleQRScan payload st
      | _ => (st, [])
      end
  | ScannerBack =>
      match st.(currentView) with
      | View_scanner => (setCurrentView View_details st, [])
      | _ => (st, [])
      end
  | ProfileBack =>
      match st.(currentView) with
      | View_profile => (setCurrentView View_map st, [])
      | _ => (st, [])
      end
  end.

(** A sequence of events, oldest first. *)
Fixpoint run (evs : list event) (st : AppState) : AppState :=
  match evs with
  | [] => st
  | ev :: rest => run rest (fst (dispatch ev st))
  end.

End Dispatch.

End App.

(** ** Vocabulary of the properties *)

(** *** Text *)

(** [c] occurs in [s]. *)
Fixpoint occurs (c : ascii) (s : string) : bool :=
  match s with
  | "" => false
  | String d rest => Ascii.eqb c d || occurs c rest
  end.

(** What may follow an [&] that starts a character reference of a text
    escaped as the specification asks, quotes included. *)
Definition is_reference (rest : string) : bool :=
  starts_with "amp;" rest || starts_with "lt;" rest || starts_with "gt;" rest
  || starts_with "nbsp;" rest || starts_with "quot;" rest || starts_with "#39;" rest.

(** Every [&] of [s] starts a character reference. *)
Fixpoint ampersands_escaped (s : string) : bool :=
  match s with
  | "" => true
  | String c rest =>
      (if Ascii.eqb c "&" then is_reference rest else true)
      && ampersands_escaped rest
  end.

(** What follows an [&] that starts one of the four character references
    the serialization of a text node writes. *)
Definition is_text_reference (rest : string) : bool :=
  starts_with "amp;" rest || starts_with "lt;" rest || starts_with "gt;" rest
  || starts_with "nbsp;" rest.

(** Every [&] of [s] starts [&amp;], [&lt;], [&gt;] or [&nbsp;]. *)
Fixpoint text_references_only (s : string) : bool :=
  match s with
  | "" => true
  | String c rest =>
      (if Ascii.eqb c "&" then is_text_reference rest else true)
      && text_references_only rest
  end.

(** U+00A0 in UTF-8. *)
Definition nbsp : string := String "194" (String "160" "").

(** [s] holds a character that the serialization of a text node replaces:
    [&], [<], [>] or U+00A0. *)
Definition needs_escaping (s : string) : bool :=
  occurs "&" s || occurs "<" s || occurs ">" s || includes s nbsp.

(** Every byte of [s] is an ASCII character. *)
Fixpoint ascii_text (s : string) : bool :=
  match s with
  | "" => true
  | String c rest => (code c <? 128)%N && ascii_text rest
  end.

(** The escaped form the specification asks of the sanitizer: no [<], [>],
    double quote or single quote is left, and no bare [&]. *)
Definition fully_escaped (out : string) : Prop :=
  occurs "<" out = false /\ occurs ">" out = false
  /\ occurs "034" out = false /\ occurs "'" out = false
  /\ ampersands_escaped out = true.

(** No character of [s] opens a tag. *)
Definition no_markup (s : string) : Prop :=
  occurs "<" s = false /\ occurs ">" s = false.

(** The graph of [Dom.escape], one constructor per branch. *)
Inductive escapes : string -> string -> Prop :=
| escapes_nil : escapes "" ""
| escapes_amp rest out :
    escapes rest out -> escapes (String "&" rest) ("&amp;" ++ out)
| escapes_lt rest out :
    escapes rest out -> escapes (String "<" rest) ("&lt;" ++ out)
| escapes_gt rest out :
    escapes rest out -> escapes (String ">" rest) ("&gt;" ++ out)
| escapes_nbsp rest out :
    escapes rest out ->
    escapes (String "194" (String "160" rest)) ("&nbsp;" ++ out)
| escapes_keep c rest out :
    c <> "&"%char -> c <> "<"%char -> c <> ">"%char ->
    starts_with (String "194" (String "160" "")) (String c rest) = false ->
    escapes rest out -> escapes (String c rest) (String c out).

(** *** Numbers *)

(** Strings of decimal digits. *)
Fixpoint all_digits (s : string) : bool :=
  match s with
  | "" => true
  | String c rest => is_digit c && all_digits rest
  end.

Definition no_leading_digit (t : string) : bool :=
  match t with
  | "" => true
  | String c _ => negb (is_digit c)
  end.

Definition no_leading_zero (t : string) : bool :=
  match t with
  | "" => true
  | String c _ => negb (Ascii.eqb c "0")
  end.

(** The rational value of a finite number. *)
Definition to_Q (neg : bool) (m : N) (e : Z) : Q :=
  let a := (inject_Z (Z.of_N m) * (10 # 1) ^ e)%Q in
  if neg then (- a)%Q else a.

(** [x] lies outside the closed interval [[lo, hi]] (NaN lies nowhere). *)
Definition outside (lo hi : Z) (x : number) : Prop :=
  match x with
  | NaN => False
  | Infinity _ => True
  | Finite neg m e =>
      (to_Q neg m e < inject_Z lo)%Q \/ (inject_Z hi < to_Q neg m e)%Q
  end.

(** [x] is a number of the closed interval [[lo, hi]]. *)
Definition within (lo hi : Z) (x : number) : Prop :=
  match x with
  | Finite neg m e =>
      (inject_Z lo <= to_Q neg m e)%Q /\ (to_Q neg m e <= inject_Z hi)%Q
  | _ => False
  end.

(** [x] and [y] are the same number value (the sign of zero apart). *)
Definition same_value (x y : number) : Prop :=
  match x, y with
  | NaN, NaN => True
  | Infinity a, Infinity b => a = b
  | Finite n1 m1 e1, Finite n2 m2 e2 => (to_Q n1 m1 e1 == to_Q n2 m2 e2)%Q
  | _, _ => False
  end.

(** *** Records: the declared types of the data model *)

Definition is_string (v : value) : bool :=
  match v with VString _ => true | _ => false end.

Definition is_number (v : value) : bool :=
  match v with VNumber _ => true | _ => false end.

(** A finite number that is not negative. *)
Definition nonneg_number (v : value) : bool :=
  match v with
  | VNumber (Finite neg m _) => negb neg || N.eqb m 0
  | _ => false
  end.

(** A finite, non-negative number without fractional part. *)
Definition nonneg_integer (v : value) : bool :=
  match v with
  | VNumber (Finite neg m e) =>
      (negb neg || N.eqb m 0)
      && ((0 <=? e) || (Z.of_N m mod 10 ^ (- e) =? 0))
  | _ => false
  end.

(** Validity as the data model words it: strings for [id], [name] and
    [address]; numbers for [lat] and [lng]; non-negative integers for
    [available] and [total]; a non-negative number for [cost]; a sequence
    for [amenities] (every value of the model has a textual form); one of
    the three enumerated values for [status]. *)
Definition declared_types (station : ChargingStation) : bool :=
  is_string station.(id) && is_string station.(name) && is_string station.(address)
  && is_number station.(lat) && is_number station.(lng)
  && nonneg_integer station.(available) && nonneg_integer station.(total)
  && nonneg_number station.(cost)
  && isArray station.(amenities)
  && (strict_eq_string station.(status) "available"
      || strict_eq_string station.(status) "busy"
      || strict_eq_string station.(status) "offline").

(** *** URLs *)





(** A directions handler is guarded when every URL it opens is built from
    coordinates that parse to numbers of the valid ranges and are
    percent-encoded. *)
Definition guarded (handler : ChargingStation -> list Effect) : Prop :=
  forall station url target,
    In (WindowOpen url target) (handler station) ->
    let lat := parseFloat (to_string station.(lat)) in
    let lng := parseFloat (to_string station.(lng)) in
    within (-90) 90 lat /\ within (-180) 180 lng
    /\ url = directions_base
             ++ encodeURIComponent (number_to_string lat) ++ ","
             ++ encodeURIComponent (number_to_string lng).

(** ** Records used as test inputs *)

(** A record with a negative port count. *)
Definition negative_ports : ChargingStation :=
  {| id := VString "7"; name := VString "Depot"; address := VString "1 Side Rd";
     lat := VNumber (of_Z 10); lng := VNumber (of_Z 20);
     available := VNumber (of_Z (-1)); total := VNumber (of_Z 4);
     cost := VNumber (of_Z 1); amenities := VArray [];
     status := VString "busy" |}.

(** A record whose status is outside the enumeration. *)
Definition unknown_status : ChargingStation :=
  {| id := VString "9"; name := VString "Ghost"; address := VString "Nowhere";
     lat := VNumber (of_Z 0); lng := VNumber (of_Z 0);
     available := VNumber (of_Z 1); total := VNumber (of_Z 1);
     cost := VNumber (Finite false 1 (-1)); amenities := VArray [];
     status := VString "broken" |}.

(** A record with latitude 999 and longitude -80.19. *)
Definition far_north : ChargingStation :=
  {| id := VString "1"; name := VString "Downtown Plaza";
     address := VString "123 Main St, Miami, FL";
     lat := VNumber (of_Z 999); lng := VNumber (Finite true 8019 (-2));
     available := VNumber (of_Z 3); total := VNumber (of_Z 4);
     cost := VNumber (Finite false 35 (-2)); amenities := VArray [VString "WiFi"];
     status := VString "available" |}.

(** An object that holds an own property [toString], and a record that
    passes validation with such an amenity. *)
Definition own_toString : value := VObject [("toString", VNumber (Finite false 1 0))].

Definition opaque_amenity : ChargingStation :=
  {| id := VString "5"; name := VString "Harbor Garage";
     address := VString "9 Dock Rd, Miami, FL";
     lat := VNumber (Finite false 2577 (-2)); lng := VNumber (Finite true 8013 (-2));
     available := VNumber (of_Z 1); total := VNumber (of_Z 2);
     cost := VNumber (Finite false 3 (-1)); amenities := VArray [own_toString];
     status := VString "available" |}.

(** ** Further platform functions *)

Module JsText.

(** Case mapping of the ASCII letters, as for [Js.lower]. *)
Definition upper (c : ascii) : ascii :=
  if ((97 <=? code c) && (code c <=? 122))%N then ascii_of_N (code c - 32) else c.

Fixpoint toUpperCase (s : string) : string :=
  match s with
  | "" => ""
  | String c rest => String (upper c) (toUpperCase rest)
  end.

(** [s.charAt(n)]: the empty string past the end. *)
Definition charAt (n : nat) (s : string) : string := take 1 (drop n s).

(** [s.slice(n)] for [0 <= n]. *)
Definition slice (n : nat) (s : string) : string := drop n s.

End JsText.

Module JsNumber.

Definition positive_zero : number := Finite false 0 0.

(** Strings of hexadecimal, octal or binary digits. *)
Definition digit_in_radix (radix : N) (c : ascii) : option N :=
  match hex_value c with
  | Some d => if (d <? radix)%N then Some d else None
  | None => None
  end.

(** Longest prefix of digits of the radix: its value, whether it is not
    empty, and what follows. *)
Fixpoint radix_digits (radix acc : N) (seen : bool) (s : string) : N * bool * string :=
  match s with
  | "" => (acc, seen, "")
  | String c rest =>
      match digit_in_radix radix c with
      | Some d => radix_digits radix (acc * radix + d)%N true rest
      | None => (acc, seen, s)
      end
  end.

(** Only white space is left. *)
Definition blank (s : string) : bool := String.eqb (trim_start s) "".

(** An [ExponentPart] at the head of [s], if there is a complete one:
    its value and what follows it; otherwise 0 and [s]. *)
Definition exponent_rest (s : string) : Z * string :=
  match s with
  | String c rest =>
      if Ascii.eqb c "e" || Ascii.eqb c "E" then
        let '(neg, body) :=
          match rest with
          | String "-" r => (true, r)
          | String "+" r => (false, r)
          | _ => (false, rest)
          end in
        let (ds, tl) := span_digits body in
        if String.eqb ds "" then (0, s)
        else ((if neg then - Z.of_N (digits_value 0 ds) else Z.of_N (digits_value 0 ds)), tl)
      else (0, s)
  | "" => (0, s)
  end.

(** Longest prefix of [s] that is an unsigned decimal literal other than
    [Infinity]: mantissa, decimal exponent, and what follows. *)
Definition literal_rest (s : string) : option (N * Z * string) :=
  let (ip, r1) := span_digits s in
  let (fp, r2) :=
    match r1 with
    | String "." r => span_digits r
    | _ => ("", r1)
    end in
  if String.eqb ip "" && String.eqb fp "" then None
  else
    let (ex, r3) := exponent_rest r2 in
    Some (digits_value 0 (ip ++ fp), ex - Z.of_nat (String.length fp), r3).

(** A literal with a radix prefix ([0x], [0o], [0b], either case). *)
Definition prefixed_literal (s : string) : option number :=
  match s with
  | String "0" (String p rest) =>
      let radix :=
        if Ascii.eqb p "x" || Ascii.eqb p "X" then Some 16%N
        else if Ascii.eqb p "o" || Ascii.eqb p "O" then Some 8%N
        else if Ascii.eqb p "b" || Ascii.eqb p "B" then Some 2%N
        else None in
      match radix with
      | Some r =>
          let '(v, seen, tl) := radix_digits r 0 false rest in
          Some (if seen && blank tl then Finite false v 0 else NaN)
      | None => None
      end
  | _ => None
  end.

(** [StringToNumber]: the whole string, white space at both ends apart,
    must be a numeric literal; the empty string is 0. *)
Definition string_to_number (s : string) : number :=
  let t := trim_start s in
  if String.eqb t "" then positive_zero
  else
    match prefixed_literal t with
    | Some x => x
    | None =>
        let (neg, body) :=
          match t with
          | String "-" r => (true, r)
          | String "+" r => (false, r)
          | _ => (false, t)
          end in
        if starts_with "Infinity" body then
          if blank (drop 8 body) then Infinity neg else NaN
        else
          match literal_rest body with
          | Some (m, e, tl) => if blank tl then Finite neg m e else NaN
          | None => NaN
          end
    end.

(** [Number(v)]: an array or an object is first turned into a string, which
    may throw. *)
Definition Number (v : value) : result number :=
  match v with
  | VUndefined => Ok NaN
  | VNull => Ok positive_zero
  | VBool true => Ok (of_Z 1)
  | VBool false => Ok positive_zero
  | VNumber n => Ok n
  | VString s => Ok (string_to_number s)
  | VArray _ | VObject _ =>
      text <- ToString v ;;
      Ok (string_to_number text)
  end.

(** A number is falsy when it is a zero or NaN. *)
Definition truthy (x : number) : bool :=
  match x with
  | NaN => false
  | Infinity _ => true
  | Finite _ m _ => negb (N.eqb m 0)
  end.

(** [x || y] on numbers. *)
Definition or_else (x y : number) : number := if truthy x then x else y.

Definition is_positive_zero (x : number) : bool :=
  match x with Finite false m _ => N.eqb m 0 | _ => false end.

Definition is_negative_zero (x : number) : bool :=
  match x with Finite true m _ => N.eqb m 0 | _ => false end.

(** One step of [Math.max] over its arguments. *)
Definition max_step (highest x : number) : number :=
  if is_positive_zero x && is_negative_zero highest then positive_zero
  else if ltb highest x then x
  else highest.

(** [Math.max(...args)] *)
Definition Math_max (args : list number) : number :=
  if existsb isNaN args then NaN
  else fold_left max_step args (Infinity true).

End JsNumber.

(** ** Further parts of the components *)

(** *** MapView, hardened variant: labels and local state *)

Module HardenedLabels.

(** [Math.max(0, Number(x) || 0)], the clamp of the displayed counts. *)
Definition clamp (x : value) : result number :=
  n <- JsNumber.Number x ;;
  Ok (JsNumber.Math_max [of_Z 0; JsNumber.or_else n (of_Z 0)]).

Definition safeAvailable (station : ChargingStation) : result number :=
  clamp station.(available).

Definition safeTotal (station : ChargingStation) : result number :=
  clamp station.(total).

(** The text of [{safeAvailable}/{safeTotal}]. *)
Definition ports_label (station : ChargingStation) : result string :=
  a <- safeAvailable station ;;
  t <- safeTotal station ;;
  Ok (number_to_string a ++ "/" ++ number_to_string t).

End HardenedLabels.

(** *** MapView, hardened variant: the calls that may throw *)

Module WithTypeError.

(** [sanitizeText] (the same function in MapView and in StationDetails). *)
Definition sanitizeText (text : value) : result string :=
  str <- ToString text ;;
  let div := Dom.createElement in
  let div := Dom.set_textContent str div in
  Ok (Dom.innerHTML div).

(** [station.amenities.slice(0, 3).map(amenity => sanitizeText(amenity))]
    and the "+n more" tag. *)
Definition amenity_section (amenities : value) : result (list content * option Z) :=
  match amenities with
  | VArray elems =>
      tags <- map_r (fun amenity =>
                       safeAmenity <- sanitizeText amenity ;;
                       Ok (Html safeAmenity)) (firstn 3 elems) ;;
      Ok (tags,
          if 3 <? Z.of_nat (List.length elems)
          then Some (Z.of_nat (List.length elems) - 3) else None)
  | _ => Throw "TypeError"
  end.

(** One card of the station list, in the order the callback evaluates. *)
Definition card (station : ChargingStation) : result Card :=
  safeName <- sanitizeText station.(name) ;;
  safeAddress <- sanitizeText station.(address) ;;
  safeAvailable <- HardenedLabels.clamp station.(available) ;;
  safeTotal <- HardenedLabels.clamp station.(total) ;;
  safeCost <- HardenedLabels.clamp station.(cost) ;;
  tags <- amenity_section station.(amenities) ;;
  Ok {| card_key := station.(id);
        card_name := Html safeName;
        card_address := Html safeAddress;
        status_class := getStatusColor station.(status);
        status_text := getStatusText station.(status);
        amenity_tags := fst tags;
        more_amenities := snd tags;
        card_click := station |}.

Definition cards (stations : list ChargingStation) (searchQuery : string)
  : result (list Card) :=
  shown <- MapViewHardened.filteredStations stations searchQuery ;;
  map_r card shown.

End WithTypeError.

Module HardenedMapState.

(** The three [useState] cells of MapView. *)
Record MapViewState : Type := {
  userLocation : option (number * number);
  searchQuery : string;
  mapCenter : value * value
}.

Definition initial : MapViewState :=
  {| userLocation := None;
     searchQuery := "";
     mapCenter := (VNumber (Finite false 2578 (-2)),
                   VNumber (Finite true 801918 (-4))) |}.

(** What happens to a mounted MapView. *)
Inductive event : Type :=
| LocationResolved (latitude longitude : number)
| LocationFailed
| SearchInput (text : string)
| CardClick (i : nat)
| ViewDetailsClick (i : nat).

Definition handleStationCardClick (station : ChargingStation) (st : MapViewState)
  : MapViewState * option ChargingStation :=
  ({| userLocation := st.(userLocation);
      searchQuery := st.(searchQuery);
      mapCenter := (station.(lat), station.(lng)) |},
   Some station).

(** One event: the new state, and the station handed to
    [onStationSelect] if any.  A click on a card or marker that is not
    rendered does nothing. *)
Definition step (stations : list ChargingStation) (ev : event) (st : MapViewState)
  : MapViewState * option ChargingStation :=
  match ev with
  | LocationResolved latitude longitude =>
      ({| userLocation := Some (latitude, longitude);
          searchQuery := st.(searchQuery);
          mapCenter := (VNumber latitude, VNumber longitude) |}, None)
  | LocationFailed =>
      ({| userLocation := Some (Finite false 257617 (-4), Finite true 801918 (-4));
          searchQuery := st.(searchQuery);
          mapCenter := st.(mapCenter) |}, None)
  | SearchInput text =>
      ({| userLocation := st.(userLocation);
          searchQuery := text;
          mapCenter := st.(mapCenter) |}, None)
  | CardClick i =>
      match MapViewHardened.cards stations st.(searchQuery) with
      | Ok cs =>
          match nth_error cs i with
          | Some c => handleStationCardClick c.(card_click) st
          | None => (st, None)
          end
      | Throw _ => (st, None)
      end
  | ViewDetailsClick i =>
      match nth_error (MapViewHardened.markers stations) i with
      | Some m => (st, Some m.(view_details))
      | None => (st, None)
      end
  end.

Fixpoint run (stations : list ChargingStation) (evs : list event) (st : MapViewState)
  : MapViewState :=
  match evs with
  | [] => st
  | ev :: rest => run stations rest (fst (step stations ev st))
  end.

End HardenedMapState.

(** *** StationDetails: what the two variants render *)

Inductive Icon : Type :=
| Wifi
| Coffee
| MapPin
| Car.

(** The icon of a lower-cased amenity name (the [switch] of both
    variants). *)
Definition amenity_icon (lowered : string) : Icon :=
  if String.eqb lowered "wifi" then Wifi
  else if String.eqb lowered "restaurant" || String.eqb lowered "food court" then Coffee
  else if String.eqb lowered "restroom" then MapPin
  else if String.eqb lowered "valet" || String.eqb lowered "parking" then Car
  else MapPin.

(** [s.charAt(0).toUpperCase() + s.slice(1)]: a TypeError unless [s] is a
    string. *)
Definition capitalized (v : value) : result string :=
  match v with
  | VString s => Ok (JsText.toUpperCase (JsText.charAt 0 s) ++ JsText.slice 1 s)
  | _ => Throw "TypeError"
  end.

Module StationDetailsGuardedView.

Definition getStatusColor (status : value) : string :=
  if strict_eq_string status "available" then "bg-green-100 text-green-800"
  else if strict_eq_string status "busy" then "bg-orange-100 text-orange-800"
  else if strict_eq_string status "offline" then "bg-red-100 text-red-800"
  else "bg-gray-100 text-gray-800".

Definition getAmenityIcon (amenity : value) : result Icon :=
  sanitized <- WithTypeError.sanitizeText amenity ;;
  let safeAmenity := toLowerCase sanitized in
  Ok (amenity_icon safeAmenity).

(** The status pill: the capitalized status, sanitized, as a text child. *)
Definition status_pill (station : ChargingStation) : result content :=
  label <- capitalized station.(status) ;;
  Ok (Child (VString (StationDetailsGuarded.sanitizeText (VString label)))).

(** The label of the charge button. *)
Definition charge_label (station : ChargingStation) : string :=
  if strict_eq_string station.(status) "available" then "Start Charging"
  else "Unavailable".

End StationDetailsGuardedView.

Module StationDetailsRawView.

Definition getAmenityIcon (amenity : value) : result Icon :=
  lowered <- call_toLowerCase amenity ;;
  Ok (amenity_icon lowered).

Definition status_pill (station : ChargingStation) : result content :=
  label <- capitalized station.(status) ;;
  Ok (Child (VString label)).

End StationDetailsRawView.

(** *** App: what [renderView] mounts *)

Module AppView.

Inductive Screen : Type :=
| MapViewScreen (stations : list ChargingStation) (isCharging : bool)
| StationDetailsScreen (station : ChargingStation)
| QRScannerScreen
| UserProfileScreen.

(** [renderView()]; [None] is [null]. *)
Definition renderView (st : App.AppState) : option Screen :=
  match st.(App.currentView) with
  | App.View_map => Some (MapViewScreen App.stations st.(App.isCharging))
  | App.View_details =>
      match st.(App.selectedStation) with
      | Some station => Some (StationDetailsScreen station)
      | None => None
      end
  | App.View_scanner => Some QRScannerScreen
  | App.View_profile => Some UserProfileScreen
  end.

End AppView.

(** *** Vocabulary of the further properties *)

(** Every character of [s] is kept by [encodeURIComponent]. *)
Fixpoint all_unreserved (s : string) : bool :=
  match s with
  | "" => true
  | String c rest => unreserved c && all_unreserved rest
  end.

(** No [&], [<] or [>] and no byte 194 (hence no U+00A0): nothing for
    [Dom.escape] to replace. *)
Fixpoint plain_text (s : string) : bool :=
  match s with
  | "" => true
  | String c rest =>
      negb (Ascii.eqb c "&") && negb (Ascii.eqb c "<") && negb (Ascii.eqb c ">")
      && negb (Ascii.eqb c "194") && plain_text rest
  end.

(** The first three amenities of a record can be turned into strings. *)
Definition amenities_render (station : ChargingStation) : bool :=
  match station.(amenities) with
  | VArray elems => forallb (fun amenity => negb (to_string_throws amenity)) (firstn 3 elems)
  | _ => false
  end.

(** The name and the address of a record are ASCII text. *)
Definition ascii_station (station : ChargingStation) : bool :=
  ascii_text (to_string station.(name)) && ascii_text (to_string station.(address)).

(** Markup given through [dangerouslySetInnerHTML] holds no tag. *)
Definition safe_content (c : content) : Prop :=
  match c with
  | Html html => no_markup html
  | Child _ => True
  end.

(** A name or an address contains the (lower-cased) query. *)
Definition search_hit (query : string) (station : ChargingStation) : bool :=
  includes (toLowerCase (to_string station.(name))) query
  || includes (toLowerCase (to_string station.(address))) query.

(** [c] is injected markup that holds no tag and shows the text of [v]. *)
Definition faithful (c : content) (v : value) : Prop :=
  exists html, c = Html html /\ no_markup html /\ Dom.rendered_text html = to_string v.

(** The map centre is a pair of numbers. *)
Definition numeric_center (st : HardenedMapState.MapViewState) : Prop :=
  is_number (fst st.(HardenedMapState.mapCenter)) = true
  /\ is_number (snd st.(HardenedMapState.mapCenter)) = true.

(** * Properties *)

(** ** The model on concrete inputs *)

Section Scenarios.

Example number_texts :
  map number_to_string
    [Finite false 257617 (-4); Finite true 801918 (-4); of_Z 999; of_Z (-90);
     Finite false 1 (-7); Finite false 15 (-7); Finite false 1 21;
     Finite true 0 0; NaN; Infinity true]
  = ["25.7617"; "-80.1918"; "999"; "-90"; "1e-7"; "0.0000015"; "1e+21";
     "0"; "NaN"; "-Infinity"].
Proof. reflexivity. Qed.

Example parsed_numbers :
  map parseFloat ["25.7617"; "  -80.19abc"; ".5e-3"; "5."; "1e"; "-Infinity"; "."; "abc"]
  = [Finite false 257617 (-4); Finite true 8019 (-2); Finite false 5 (-4);
     Finite false 5 0; Finite false 1 0; Infinity true; NaN; NaN].
Proof. reflexivity. Qed.

Example percent_encoding :
  encodeURIComponent "a b&c=d/e,+" = "a%20b%26c%3Dd%2Fe%2C%2B"
  /\ decodeURIComponent "a%20b%26c%3Dd%2Fe%2C%2B" = Some "a b&c=d/e,+"
  /\ decodeURIComponent "%zz" = None.
Proof. repeat split. Qed.

(** Scenario A: the first record of the feed passes validation and gets a
    green marker. *)
Example downtown_plaza_marker :
  MapViewHardened.validateStation (hd unknown_status App.stations) = true
  /\ map icon_color (MapViewHardened.markers App.stations)
     = ["#10B981"; "#F59E0B"; "#10B981"]
  /\ map popup_name (MapViewHardened.markers App.stations)
     = [Html "Downtown Plaza"; Html "Airport Terminal"; Html "Beach Resort"].
Proof. repeat split. Qed.

(** Scenario B: markup in a name is shown as text. *)
Example image_tag_escaped :
  MapViewHardened.sanitizeText (VString "<img src=x onerror=alert(1)>")
  = "&lt;img src=x onerror=alert(1)&gt;"
  /\ Dom.rendered_text "&lt;img src=x onerror=alert(1)&gt;"
     = "<img src=x onerror=alert(1)>"
  /\ MapViewHardened.sanitizeText (VNumber (Finite false 35 (-2))) = "0.35"
  /\ MapViewHardened.sanitizeText (VString "Fish & Chips") = "Fish &amp; Chips".
Proof. repeat split. Qed.

(** The search of the hardened MapView. *)
Example search_airport :
  MapViewHardened.filteredStations App.stations "AIRPORT"
  = Ok [nth 1 App.stations unknown_status]
  /\ MapViewHardened.filteredStations App.stations "miami beach"
     = Ok [nth 2 App.stations unknown_status]
  /\ MapViewHardened.filteredStations (unknown_status :: App.stations) ""
     = Ok App.stations.
Proof. repeat split. Qed.

(** The original MapView calls [toLowerCase] on whatever the name is. *)
Example original_search_throws :
  MapView.filteredStations
    [{| id := VString "5"; name := VNumber (of_Z 42); address := VString "x";
        lat := VNumber (of_Z 0); lng := VNumber (of_Z 0);
        available := VNumber (of_Z 0); total := VNumber (of_Z 0);
        cost := VNumber (of_Z 0); amenities := VArray [];
        status := VString "offline" |}] ""
  = Throw "TypeError".
Proof. reflexivity. Qed.

End Scenarios.

(** ** Strings *)

Section Strings.

Lemma append_empty_r s : s ++ "" = s.
Proof. induction s as [|c s IH]; cbn; [|rewrite IH]; reflexivity. Qed.

Lemma append_assoc s t u : (s ++ t) ++ u = s ++ (t ++ u).
Proof. induction s as [|c s IH]; cbn; [|rewrite IH]; reflexivity. Qed.

Lemma length_append s t :
  String.length (s ++ t) = (String.length s + String.length t)%nat.
Proof. induction s as [|c s IH]; cbn; [|rewrite IH]; reflexivity. Qed.

End Strings.

(** ** Text sanitizer *)

Section Sanitizer.

Lemma string_pair_ind (P : string -> Prop) :
  P "" ->
  (forall c, P (String c "")) ->
  (forall c d s, P s -> P (String d s) -> P (String c (String d s))) ->
  forall s, P s.
Proof.
  intros Hnil Hone Hstep.
  assert (both : forall s, P s /\ forall c, P (String c s)).
  { induction s as [|d s [IHs IHc]].
    - split; [exact Hnil | exact Hone].
    - split; [apply IHc | intro c; apply Hstep; [exact IHs | apply IHc]]. }
  intro s. apply both.
Qed.

Lemma escape_unfold c rest :
  Dom.escape (String c rest) =
  if Ascii.eqb c "&" then "&amp;" ++ Dom.escape rest
  else if Ascii.eqb c "<" then "&lt;" ++ Dom.escape rest
  else if Ascii.eqb c ">" then "&gt;" ++ Dom.escape rest
  else match rest with
       | String d rest' =>
           if Ascii.eqb c "194" && Ascii.eqb d "160"
           then "&nbsp;" ++ Dom.escape rest'
           else String c (Dom.escape rest)
       | "" => String c ""
       end.
Proof. reflexivity. Qed.

(** [Dom.escape] follows its graph. *)
Lemma escape_graph : forall s, escapes s (Dom.escape s).
Proof.
  induction s as [| c | c d s IHs IHd] using string_pair_ind.
  - constructor.
  - rewrite escape_unfold.
    destruct (Ascii.eqb_spec c "&") as [->|Hamp]; [apply escapes_amp; constructor|].
    destruct (Ascii.eqb_spec c "<") as [->|Hlt]; [apply escapes_lt; constructor|].
    destruct (Ascii.eqb_spec c ">") as [->|Hgt]; [apply escapes_gt; constructor|].
    apply escapes_keep; auto; [|constructor].
    cbn [starts_with]. apply andb_false_r.
  - rewrite escape_unfold.
    destruct (Ascii.eqb_spec c "&") as [->|Hamp]; [apply escapes_amp; exact IHd|].
    destruct (Ascii.eqb_spec c "<") as [->|Hlt]; [apply escapes_lt; exact IHd|].
    destruct (Ascii.eqb_spec c ">") as [->|Hgt]; [apply escapes_gt; exact IHd|].
    destruct (Ascii.eqb_spec c "194") as [->|Hc2]; simpl andb.
    + destruct (Ascii.eqb_spec d "160") as [->|Ha0].
      * apply escapes_nbsp; exact IHs.
      * apply escapes_keep; auto.
        cbn [starts_with]. rewrite andb_true_r.
        rewrite Ascii.eqb_refl. apply Ascii.eqb_neq; congruence.
    + apply escapes_keep; auto.
      cbn [starts_with]. apply andb_false_intro1.
      apply Ascii.eqb_neq; congruence.
Qed.

Lemma sanitize_is_escape v :
  MapViewHardened.sanitizeText v = Dom.escape (to_string v).
Proof.
  unfold MapViewHardened.sanitizeText, Dom.set_textContent, Dom.innerHTML.
  destruct (String.eqb_spec (to_string v) "") as [E|E].
  - rewrite E. reflexivity.
  - reflexivity.
Qed.

(** The two copies of [sanitizeText] are the same function. *)
Lemma sanitize_copies v :
  StationDetailsGuarded.sanitizeText v = MapViewHardened.sanitizeText v.
Proof. reflexivity. Qed.

Lemma escapes_no_markup s out : escapes s out -> no_markup out.
Proof.
  unfold no_markup.
  induction 1 as [| ? ? _ [IH1 IH2] | ? ? _ [IH1 IH2] | ? ? _ [IH1 IH2]
                  | ? ? _ [IH1 IH2] | c ? ? Hamp Hlt Hgt _ _ [IH1 IH2]];
    cbn [occurs append]; rewrite ?IH1, ?IH2; try (split; reflexivity).
  split; rewrite orb_false_r; apply Ascii.eqb_neq; congruence.
Qed.

Lemma escapes_text_references s out :
  escapes s out -> text_references_only out = true.
Proof.
  induction 1 as [| ? ? _ IH | ? ? _ IH | ? ? _ IH | ? ? _ IH
                  | c ? ? Hamp _ _ _ _ IH];
    cbn [text_references_only append]; rewrite ?IH; try reflexivity.
  apply Ascii.eqb_neq in Hamp. rewrite Hamp. reflexivity.
Qed.

(** Characters that no replacement text contains are neither added nor
    removed. *)
Lemma escapes_keeps_quotes q s out :
  q = "'"%char \/ q = "034"%char ->
  escapes s out -> occurs q out = occurs q s.
Proof.
  intros Hq.
  induction 1 as [| ? ? _ IH | ? ? _ IH | ? ? _ IH | ? ? _ IH
                  | c ? ? _ _ _ _ _ IH];
    cbn [occurs append]; rewrite ?IH; try reflexivity;
    destruct Hq as [-> | ->]; reflexivity.
Qed.

(** Rendering undoes escaping. *)
Lemma escapes_rendered s out : escapes s out -> Dom.rendered_text out = s.
Proof.
  unfold Dom.rendered_text.
  induction 1 as [| ? ? _ IH | ? ? _ IH | ? ? _ IH | ? ? _ IH
                  | c ? ? Hamp _ _ _ _ IH].
  - reflexivity.
  - cbn. rewrite IH. reflexivity.
  - cbn. rewrite IH. reflexivity.
  - cbn. rewrite IH. reflexivity.
  - cbn. rewrite IH. reflexivity.
  - cbn [Dom.rendered_from]. apply Ascii.eqb_neq in Hamp. rewrite Hamp, IH.
    reflexivity.
Qed.

(** A character that is kept does not change what is left to escape. *)
Lemma needs_escaping_keep c rest :
  c <> "&"%char -> c <> "<"%char -> c <> ">"%char ->
  starts_with nbsp (String c rest) = false ->
  needs_escaping (String c rest) = needs_escaping rest.
Proof.
  intros Hamp Hlt Hgt Hnb. unfold needs_escaping.
  cbn [occurs includes]. rewrite Hnb.
  assert (E1 : Ascii.eqb "&" c = false) by (apply Ascii.eqb_neq; congruence).
  assert (E2 : Ascii.eqb "<" c = false) by (apply Ascii.eqb_neq; congruence).
  assert (E3 : Ascii.eqb ">" c = false) by (apply Ascii.eqb_neq; congruence).
  rewrite E1, E2, E3. reflexivity.
Qed.

Lemma needs_escaping_head c rest :
  c = "&"%char \/ c = "<"%char \/ c = ">"%char ->
  needs_escaping (String c rest) = true.
Proof.
  unfold needs_escaping. cbn [occurs].
  intros [-> | [-> | ->]]; rewrite ?Ascii.eqb_refl; cbn [orb];
    rewrite ?orb_true_r; reflexivity.
Qed.

Lemma needs_escaping_nbsp rest :
  needs_escaping (String "194" (String "160" rest)) = true.
Proof.
  unfold needs_escaping. cbn [includes starts_with nbsp].
  rewrite !Ascii.eqb_refl. cbn [andb orb]. apply orb_true_r.
Qed.

(** Text that holds nothing to escape is left as it is. *)
Lemma escapes_unchanged s out :
  escapes s out -> needs_escaping s = false -> out = s.
Proof.
  induction 1 as [| ? ? _ IH | ? ? _ IH | ? ? _ IH | ? ? _ IH
                  | c ? ? Hamp Hlt Hgt Hnb _ IH]; intros N.
  - reflexivity.
  - rewrite needs_escaping_head in N by auto. discriminate N.
  - rewrite needs_escaping_head in N by auto. discriminate N.
  - rewrite needs_escaping_head in N by auto. discriminate N.
  - rewrite needs_escaping_nbsp in N. discriminate N.
  - rewrite needs_escaping_keep in N by assumption. rewrite (IH N). reflexivity.
Qed.

(** Every replacement makes the text longer. *)
Lemma escapes_longer s out :
  escapes s out ->
  (String.length s <= String.length out)%nat
  /\ (needs_escaping s = true -> (String.length s < String.length out)%nat).
Proof.
  induction 1 as [| ? ? _ [IH _] | ? ? _ [IH _] | ? ? _ [IH _] | ? ? _ [IH _]
                  | c ? ? Hamp Hlt Hgt Hnb _ [IH1 IH2]];
    cbn [String.length append]; try (split; [lia | intros _; lia]).
  - split; [lia | discriminate].
  - split; [lia|]. rewrite needs_escaping_keep by assumption.
    intros N. specialize (IH2 N). lia.
Qed.

(** The output is the input exactly when nothing is to be escaped. *)
Lemma escapes_fixed s out :
  escapes s out -> (out = s <-> needs_escaping s = false).
Proof.
  intros G. split.
  - intros ->. destruct (needs_escaping s) eqn:N; [|reflexivity].
    destruct (escapes_longer _ _ G) as [_ L]. specialize (L N). lia.
  - apply (escapes_unchanged _ _ G).
Qed.

(** Every replacement writes an ampersand. *)
Lemma escapes_marks s out :
  escapes s out -> needs_escaping s = true -> occurs "&" out = true.
Proof.
  induction 1 as [| ? ? _ IH | ? ? _ IH | ? ? _ IH | ? ? _ IH
                  | c ? ? Hamp Hlt Hgt Hnb _ IH]; intros N; try reflexivity.
  - discriminate N.
  - rewrite needs_escaping_keep in N by assumption.
    cbn [occurs]. rewrite (IH N). apply orb_true_r.
Qed.

(** Escaped text needs escaping exactly when the text did. *)
Lemma escapes_needs s out :
  escapes s out -> needs_escaping out = needs_escaping s.
Proof.
  intros G. destruct (needs_escaping s) eqn:N.
  - unfold needs_escaping. rewrite (escapes_marks _ _ G N). reflexivity.
  - rewrite (escapes_unchanged _ _ G N). exact N.
Qed.

(** [sanitizeText] throws where [String] does and otherwise escapes. *)
Lemma sanitize_completion v :
  WithTypeError.sanitizeText v
  = if to_string_throws v then Throw "TypeError"
    else Ok (MapViewHardened.sanitizeText v).
Proof.
  unfold WithTypeError.sanitizeText, ToString.
  destruct (to_string_throws v); reflexivity.
Qed.

(** [String] returns on every string and on every number. *)
Lemma text_never_throws v :
  is_string v = true \/ is_number v = true -> to_string_throws v = false.
Proof.
  destruct v; cbn; intros [H|H]; try discriminate H; reflexivity.
Qed.

End Sanitizer.

(** C3, as stated, fails: a single quote passes through [sanitizeText]
    unchanged, so the output is not free of quote characters. *)
Lemma sanitize_keeps_single_quote :
  ~ fully_escaped (MapViewHardened.sanitizeText (VString "it's")).
Proof.
  intros (_ & _ & _ & H & _). vm_compute in H. discriminate H.
Qed.

(** C3 (amended).  [sanitizeText] returns on every string and number, and
    throws only where [String] throws.  Its output is the text of the input
    with each [&], [<], [>] and U+00A0 replaced by [&amp;], [&lt;], [&gt;]
    and [&nbsp;] and every other character kept: it holds no [<] and no
    [>], every [&] of it starts one of these four references, it renders
    as the text of the input, and the quote characters of the input are
    left as they are.  The escaping is that of HTML text, not that of
    attribute values. *)
Theorem sanitize_escapes_text :
  forall v : value,
    (is_string v = true \/ is_number v = true -> to_string_throws v = false)
    /\ (to_string_throws v = true ->
        WithTypeError.sanitizeText v = Throw "TypeError")
    /\ (to_string_throws v = false ->
        exists out,
          WithTypeError.sanitizeText v = Ok out
          /\ out = MapViewHardened.sanitizeText v
          /\ out = StationDetailsGuarded.sanitizeText v
          /\ escapes (to_string v) out
          /\ no_markup out
          /\ text_references_only out = true
          /\ Dom.rendered_text out = to_string v
          /\ occurs "'" out = occurs "'" (to_string v)
          /\ occurs "034" out = occurs "034" (to_string v)).
Proof.
  intros v. split; [apply text_never_throws|].
  split; intros T; rewrite sanitize_completion, T; [reflexivity|].
  exists (MapViewHardened.sanitizeText v).
  split; [reflexivity|]. split; [reflexivity|].
  split; [symmetry; apply sanitize_copies|].
  rewrite sanitize_is_escape.
  pose proof (escape_graph (to_string v)) as G.
  split; [exact G|].
  split; [apply (escapes_no_markup _ _ G)|].
  split; [apply (escapes_text_references _ _ G)|].
  split; [apply (escapes_rendered _ _ G)|].
  split.
  - apply (escapes_keeps_quotes _ _ _ (or_introl eq_refl) G).
  - apply (escapes_keeps_quotes _ _ _ (or_intror eq_refl) G).
Qed.

Lemma sanitize_escapes_text_witness :
  WithTypeError.sanitizeText own_toString = Throw "TypeError"
  /\ exists out,
       WithTypeError.sanitizeText (VString "<b>it's R&D</b>") = Ok out
       /\ escapes "<b>it's R&D</b>" out
       /\ text_references_only out = true
       /\ Dom.rendered_text out = "<b>it's R&D</b>".
Proof.
  destruct (sanitize_escapes_text own_toString) as (_ & T & _).
  destruct (sanitize_escapes_text (VString "<b>it's R&D</b>")) as (S & _ & R).
  split; [apply T; reflexivity|].
  destruct (R (S (or_introl eq_refl))) as (out & E & _ & _ & G & _ & A & D & _).
  exists out. repeat split; assumption.
Defined.

(** C6, as stated, fails: a second application escapes the [&] of the
    references the first one wrote, so the two outputs differ and render
    differently. *)
Lemma sanitize_twice_renders_differently :
  let once := MapViewHardened.sanitizeText (VString "<") in
  let twice := MapViewHardened.sanitizeText (VString once) in
  once = "&lt;" /\ twice = "&amp;lt;"
  /\ Dom.rendered_text once = "<" /\ Dom.rendered_text twice = "&lt;"
  /\ Dom.rendered_text twice <> Dom.rendered_text once.
Proof.
  vm_compute. repeat split. discriminate.
Qed.

(** C6 (amended).  [sanitizeText] works on the textual form of its
    argument: it throws a TypeError exactly when [String] does, which is
    never the case for a string or a number.  Otherwise its output, and the
    output of a second application, hold no [<] or [>]; rendering the
    output shows the input text, and rendering the output of a second
    application shows the output of the first (the escaped text).  The two
    outputs are equal, and render identically, exactly when the input text
    holds none of [&], [<], [>], U+00A0. *)
Theorem sanitize_reapplied :
  forall v : value,
    (is_string v = true \/ is_number v = true -> to_string_throws v = false)
    /\ (to_string_throws v = true ->
        WithTypeError.sanitizeText v = Throw "TypeError")
    /\ (to_string_throws v = false ->
        exists once twice,
          WithTypeError.sanitizeText v = Ok once
          /\ WithTypeError.sanitizeText (VString (to_string v)) = Ok once
          /\ WithTypeError.sanitizeText (VString once) = Ok twice
          /\ no_markup once /\ no_markup twice
          /\ Dom.rendered_text once = to_string v
          /\ Dom.rendered_text twice = once
          /\ (twice = once <-> needs_escaping (to_string v) = false)
          /\ (Dom.rendered_text twice = Dom.rendered_text once
              <-> needs_escaping (to_string v) = false)).
Proof.
  intros v. split; [apply text_never_throws|].
  split; intros T; rewrite sanitize_completion, T; [reflexivity|].
  exists (Dom.escape (to_string v)), (Dom.escape (Dom.escape (to_string v))).
  rewrite !sanitize_completion, !sanitize_is_escape. cbn [to_string_throws to_string].
  pose proof (escape_graph (to_string v)) as G1.
  pose proof (escape_graph (Dom.escape (to_string v))) as G2.
  split; [reflexivity|]. split; [reflexivity|]. split; [reflexivity|].
  split; [apply (escapes_no_markup _ _ G1)|].
  split; [apply (escapes_no_markup _ _ G2)|].
  split; [apply (escapes_rendered _ _ G1)|].
  split; [apply (escapes_rendered _ _ G2)|].
  split.
  - rewrite (escapes_fixed _ _ G2). rewrite (escapes_needs _ _ G1). reflexivity.
  - rewrite (escapes_rendered _ _ G1), (escapes_rendered _ _ G2).
    apply (escapes_fixed _ _ G1).
Qed.

Lemma sanitize_reapplied_witness :
  WithTypeError.sanitizeText (VArray [own_toString]) = Throw "TypeError"
  /\ exists once twice,
       WithTypeError.sanitizeText (VNumber (of_Z 42)) = Ok once
       /\ WithTypeError.sanitizeText (VString once) = Ok twice
       /\ twice = once.
Proof.
  destruct (sanitize_reapplied (VArray [own_toString])) as (_ & T & _).
  destruct (sanitize_reapplied (VNumber (of_Z 42))) as (S & _ & R).
  split; [apply T; reflexivity|].
  destruct (R (S (or_intror eq_refl)))
    as (once & twice & E1 & _ & E2 & _ & _ & _ & _ & Q & _).
  exists once, twice. split; [exact E1|]. split; [exact E2|].
  apply Q. reflexivity.
Defined.

(** ** Station record validator *)

Section Validator.

Lemma typeof_string v :
  String.eqb (typeof v) "string" = true <-> exists s, v = VString s.
Proof.
  split.
  - destruct v; cbn; try discriminate. eauto.
  - intros [s ->]. reflexivity.
Qed.

Lemma typeof_number v :
  String.eqb (typeof v) "number" = true <-> exists n, v = VNumber n.
Proof.
  split.
  - destruct v; cbn; try discriminate. eauto.
  - intros [n ->]. reflexivity.
Qed.

Lemma isArray_array v : isArray v = true <-> exists elems, v = VArray elems.
Proof.
  split.
  - destruct v; cbn; try discriminate. eauto.
  - intros [l ->]. reflexivity.
Qed.

Lemma status_enumerated v :
  includes_strings ["available"; "busy"; "offline"] v = true <->
  exists s, v = VString s /\ In s ["available"; "busy"; "offline"].
Proof.
  unfold includes_strings. rewrite existsb_exists. split.
  - intros (s & Hin & Heq). destruct v; cbn in Heq; try discriminate.
    apply String.eqb_eq in Heq. subst. eauto.
  - intros (s & -> & Hin). exists s. split; [exact Hin|]. cbn. apply String.eqb_refl.
Qed.

Lemma is_string_typeof v : is_string v = String.eqb (typeof v) "string".
Proof. destruct v; reflexivity. Qed.

Lemma is_number_typeof v : is_number v = String.eqb (typeof v) "number".
Proof. destruct v; reflexivity. Qed.

Lemma nonneg_integer_number v : nonneg_integer v = true -> is_number v = true.
Proof. destruct v; cbn; try discriminate. reflexivity. Qed.

Lemma nonneg_number_number v : nonneg_number v = true -> is_number v = true.
Proof. destruct v; cbn; try discriminate. reflexivity. Qed.

Lemma status_cases v :
  strict_eq_string v "available" || strict_eq_string v "busy"
  || strict_eq_string v "offline"
  = includes_strings ["available"; "busy"; "offline"] v.
Proof. cbn. rewrite orb_false_r, orb_assoc. reflexivity. Qed.

(** The data model's validity implies the validator's. *)
Lemma declared_types_validated station :
  declared_types station = true -> MapViewHardened.validateStation station = true.
Proof.
  unfold declared_types, MapViewHardened.validateStation.
  intros H. rewrite !andb_true_iff, status_cases, !is_string_typeof in H.
  destruct H as [[[[[[[[[Hid Hname] Haddr] Hlat] Hlng] Hav] Htot] Hcost] Ham] Hst].
  apply nonneg_integer_number in Hav, Htot. apply nonneg_number_number in Hcost.
  rewrite is_number_typeof in Hlat, Hlng, Hav, Htot, Hcost.
  rewrite Hid, Hname, Haddr, Hlat, Hlng, Hav, Htot, Hcost, Ham, Hst.
  reflexivity.
Qed.

(** The shape of the records that pass. *)
Lemma validated_shape station :
  MapViewHardened.validateStation station = true <->
  exists (i n a : string) (la ln av to co : number) (am : list value) (st : string),
    station = {| id := VString i; name := VString n; address := VString a;
                 lat := VNumber la; lng := VNumber ln;
                 available := VNumber av; total := VNumber to;
                 cost := VNumber co; amenities := VArray am;
                 status := VString st |}
    /\ In st ["available"; "busy"; "offline"].
Proof.
  unfold MapViewHardened.validateStation.
  rewrite !andb_true_iff, !typeof_string, !typeof_number, isArray_array,
    status_enumerated.
  destruct station as [i n a la ln av to co am st]; cbn [id name address lat lng
    available total cost amenities status].
  split.
  - intros [[[[[[[[[[i' ->] [n' ->]] [a' ->]] [la' ->]] [ln' ->]] [av' ->]]
      [to' ->]] [co' ->]] [am' ->]] (st' & -> & Hin)].
    exists i', n', a', la', ln', av', to', co', am', st'. split; [reflexivity | exact Hin].
  - intros (i' & n' & a' & la' & ln' & av' & to' & co' & am' & st' & E & Hin).
    injection E as -> -> -> -> -> -> -> -> -> ->.
    repeat split; eauto.
Qed.

End Validator.

(** C7, as stated, fails: the validator accepts a record whose
    [available] is not a non-negative integer. *)
Lemma validator_accepts_negative_ports :
  MapViewHardened.validateStation negative_ports = true
  /\ declared_types negative_ports = false
  /\ ~ (forall station,
          MapViewHardened.validateStation station = true
          <-> declared_types station = true).
Proof.
  split; [reflexivity|]. split; [reflexivity|].
  intros H. pose proof (proj1 (H negative_ports) eq_refl) as D.
  vm_compute in D. discriminate D.
Qed.

(** C7 (amended).  [validateStation] is a total boolean function of the
    record; it returns true exactly when [id], [name] and [address] are
    strings, [lat], [lng], [available], [total] and [cost] have type
    number (whatever their value), [amenities] is an array (whatever its
    elements) and [status] is one of ['available'], ['busy'], ['offline'].
    Every record that matches the declared types of the data model
    passes. *)
Theorem validateStation_structural :
  forall station : ChargingStation,
    (MapViewHardened.validateStation station = true <->
     exists (i n a : string) (la ln av to co : number) (am : list value) (st : string),
       station = {| id := VString i; name := VString n; address := VString a;
                    lat := VNumber la; lng := VNumber ln;
                    available := VNumber av; total := VNumber to;
                    cost := VNumber co; amenities := VArray am;
                    status := VString st |}
       /\ In st ["available"; "busy"; "offline"])
    /\ (declared_types station = true ->
        MapViewHardened.validateStation station = true).
Proof.
  intros station. split; [apply validated_shape | apply declared_types_validated].
Qed.

Lemma validateStation_structural_witness :
  declared_types (hd negative_ports App.stations) = true
  /\ MapViewHardened.validateStation (hd negative_ports App.stations) = true.
Proof.
  assert (D : declared_types (hd negative_ports App.stations) = true) by reflexivity.
  split; [exact D|].
  exact (proj2 (validateStation_structural (hd negative_ports App.stations)) D).
Defined.

(** ** Rendering surfaces of MapView *)

Section Surfaces.

Lemma filter_r_incl {A : Type} (p : A -> result bool) (l shown : list A) :
  filter_r p l = Ok shown -> incl shown l.
Proof.
  revert shown. induction l as [|x l IH]; intros shown H; cbn in H.
  - injection H as <-. apply incl_nil_l.
  - destruct (p x) as [b|]; cbn in H; [|discriminate].
    destruct (filter_r p l) as [kept|]; cbn in H; [|discriminate].
    injection H as <-. specialize (IH kept eq_refl).
    destruct b.
    + apply incl_cons; [left; reflexivity | apply incl_tl, IH].
    + apply incl_tl, IH.
Qed.

Lemma filter_r_total {A : Type} (p : A -> result bool) (l : list A) :
  (forall x, In x l -> exists b, p x = Ok b) ->
  exists shown, filter_r p l = Ok shown.
Proof.
  induction l as [|x l IH]; intros Hp; cbn.
  - eauto.
  - destruct (Hp x (or_introl eq_refl)) as [b ->].
    destruct IH as [kept ->]; [intros; apply Hp; right; assumption|].
    cbn. eauto.
Qed.

(** On a validated record the search predicate does not throw. *)
Lemma hardened_matches_total query station :
  MapViewHardened.validateStation station = true ->
  exists b, MapViewHardened.matches query station = Ok b.
Proof.
  intros H. apply validated_shape in H.
  destruct H as (i & n & a & la & ln & av & to & co & am & st & -> & _).
  unfold MapViewHardened.matches. cbn.
  destruct (includes (toLowerCase n) query); eauto.
Qed.

Lemma hardened_card_station station c :
  MapViewHardened.card station = Ok c -> card_click c = station.
Proof.
  unfold MapViewHardened.card.
  destruct (amenity_section _ _); cbn; [|discriminate].
  intros E. injection E as <-. reflexivity.
Qed.

Lemma map_r_stations (f : ChargingStation -> result Card) (l : list ChargingStation) cs :
  (forall s c, f s = Ok c -> card_click c = s) ->
  map_r f l = Ok cs -> map card_click cs = l.
Proof.
  intros Hf. revert cs. induction l as [|x l IH]; intros cs H; cbn in H.
  - injection H as <-. reflexivity.
  - destruct (f x) as [c|] eqn:Ec; cbn in H; [|discriminate].
    destruct (map_r f l) as [ys|]; cbn in H; [|discriminate].
    injection H as <-. cbn. rewrite (Hf _ _ Ec), (IH ys eq_refl). reflexivity.
Qed.

(** The hardened MapView: the search list is computed without a
    TypeError, and list, cards and markers range over validated records
    only. *)
Lemma hardened_surfaces_validated (stations : list ChargingStation) (query : string) :
  (exists shown, MapViewHardened.filteredStations stations query = Ok shown)
  /\ (forall shown station,
        MapViewHardened.filteredStations stations query = Ok shown ->
        In station shown ->
        In station stations /\ MapViewHardened.validateStation station = true)
  /\ (forall cs station,
        MapViewHardened.cards stations query = Ok cs ->
        In station (map card_click cs) ->
        In station stations /\ MapViewHardened.validateStation station = true)
  /\ (forall station,
        In station (map view_details (MapViewHardened.markers stations)) ->
        In station stations /\ MapViewHardened.validateStation station = true).
Proof.
  assert (Hlist : forall shown station,
             MapViewHardened.filteredStations stations query = Ok shown ->
             In station shown ->
             In station stations /\ MapViewHardened.validateStation station = true).
  { intros shown station H Hin. apply filter_r_incl in H.
    apply filter_In. apply H. exact Hin. }
  split; [|split; [exact Hlist|split]].
  - apply filter_r_total. intros x Hx. apply filter_In in Hx.
    apply hardened_matches_total. apply Hx.
  - intros cs station H Hin. unfold MapViewHardened.cards in H.
    destruct (MapViewHardened.filteredStations stations query) as [shown|] eqn:E;
      cbn in H; [|discriminate].
    apply map_r_stations in H; [|apply hardened_card_station].
    rewrite H in Hin. apply (Hlist shown); [reflexivity | exact Hin].
  - intros station Hin. unfold MapViewHardened.markers in Hin.
    rewrite map_map in Hin. cbn in Hin. rewrite map_id in Hin.
    apply filter_In. exact Hin.
Qed.

End Surfaces.

(** C1.  The original MapView breaks the exclusion policy: it hands one
    marker per record of the feed to the map, validated or not, and its
    search list is filtered by the query only.  The record
    [unknown_status], which [validateStation] rejects, gets a marker and
    is listed for the empty query. *)
Theorem original_mapview_shows_unvalidated :
  (forall stations, map view_details (MapView.markers stations) = stations)
  /\ MapViewHardened.validateStation unknown_status = false
  /\ In unknown_status (map view_details (MapView.markers [unknown_status]))
  /\ MapView.filteredStations [unknown_status] "" = Ok [unknown_status]
  /\ (exists c, MapView.cards [unknown_status] "" = Ok [c]
                /\ card_click c = unknown_status)
  /\ map view_details (MapViewHardened.markers [unknown_status]) = []
  /\ MapViewHardened.filteredStations [unknown_status] "" = Ok [].
Proof.
  split.
  { intros stations. unfold MapView.markers. rewrite map_map. cbn. apply map_id. }
  split; [reflexivity|]. split; [left; reflexivity|]. split; [reflexivity|].
  split; [eexists; split; reflexivity|]. split; reflexivity.
Qed.

(** ** Number texts: [parseFloat] after [String] *)

Section NumberTexts.

(** *** Digit strings *)

Lemma digit_cases c :
  is_digit c = true -> In c ["0"; "1"; "2"; "3"; "4"; "5"; "6"; "7"; "8"; "9"]%char.
Proof.
  destruct c as [[] [] [] [] [] [] [] []]; vm_compute; intros H;
    (discriminate H || tauto).
Qed.

Lemma span_digits_app s t :
  all_digits s = true -> no_leading_digit t = true ->
  span_digits (s ++ t) = (s, t).
Proof.
  intros Hs Ht. induction s as [|c s IH]; cbn [append].
  - destruct t as [|c t]; [reflexivity|]. cbn in *.
    apply negb_true_iff in Ht. rewrite Ht. reflexivity.
  - cbn in Hs. apply andb_true_iff in Hs. destruct Hs as [Hc Hs].
    cbn [span_digits]. rewrite Hc, (IH Hs). reflexivity.
Qed.

Lemma digits_value_app s t acc :
  digits_value acc (s ++ t) = digits_value (digits_value acc s) t.
Proof.
  revert acc. induction s as [|c s IH]; intros acc; cbn; [reflexivity|apply IH].
Qed.

Lemma digits_value_zeros j acc :
  digits_value acc (repeat_zero j) = (acc * 10 ^ N.of_nat j)%N.
Proof.
  revert acc. induction j as [|j IH]; intros acc.
  - cbn. lia.
  - cbn [repeat_zero digits_value]. rewrite IH.
    change (code "0" - 48)%N with 0%N.
    rewrite Nat2N.inj_succ, N.pow_succ_r'. lia.
Qed.

Lemma all_digits_app s t :
  all_digits (s ++ t) = all_digits s && all_digits t.
Proof.
  induction s as [|c s IH]; cbn; [reflexivity|]. rewrite IH, andb_assoc. reflexivity.
Qed.

Lemma all_digits_zeros j : all_digits (repeat_zero j) = true.
Proof. induction j; cbn; auto. Qed.

Lemma uint_digits d : all_digits (NilEmpty.string_of_uint d) = true.
Proof. induction d; cbn; auto. Qed.

Lemma uint_value_acc d acc :
  digits_value (N.pos acc) (NilEmpty.string_of_uint d) = N.pos (Pos.of_uint_acc d acc).
Proof.
  revert acc. induction d; intros acc; cbn [NilEmpty.string_of_uint digits_value Pos.of_uint_acc];
    [reflexivity|..]; rewrite <- IHd; f_equal;
    match goal with
    | |- context [(code ?c - 48)%N] =>
        let v := eval vm_compute in (code c - 48)%N in
        change (code c - 48)%N with v
    end; lia.
Qed.

Lemma uint_value d :
  digits_value 0 (NilEmpty.string_of_uint d) = N.of_uint d.
Proof.
  unfold N.of_uint.
  induction d; cbn [NilEmpty.string_of_uint digits_value Pos.of_uint];
    [reflexivity| exact IHd |..]; apply uint_value_acc.
Qed.

Lemma digits_of_N_digits m : all_digits (digits_of_N m) = true.
Proof. apply uint_digits. Qed.

Lemma digits_of_N_value m : digits_value 0 (digits_of_N m) = m.
Proof. unfold digits_of_N. rewrite uint_value. apply DecimalN.Unsigned.of_to. Qed.

(** *** Reversal and trailing zeros *)

Lemma rev_string_acc s acc : rev_string s acc = rev_string s "" ++ acc.
Proof.
  revert acc. induction s as [|c s IH]; intros acc; cbn [rev_string]; [reflexivity|].
  rewrite IH, (IH (String c "")), append_assoc. reflexivity.
Qed.

Lemma rev_string_app a b :
  rev_string (a ++ b) "" = rev_string b "" ++ rev_string a "".
Proof.
  induction a as [|c a IH]; cbn [append rev_string].
  - rewrite append_empty_r. reflexivity.
  - rewrite rev_string_acc, IH, (rev_string_acc a (String c "")), append_assoc.
    reflexivity.
Qed.

Lemma rev_string_involutive s : rev_string (rev_string s "") "" = s.
Proof.
  induction s as [|c s IH]; [reflexivity|].
  cbn [rev_string]. rewrite (rev_string_acc s (String c "")), rev_string_app, IH.
  reflexivity.
Qed.

Lemma zeros_snoc j : repeat_zero j ++ "0" = String "0" (repeat_zero j).
Proof. induction j as [|j IH]; cbn; [|rewrite IH]; reflexivity. Qed.

Lemma rev_zeros j : rev_string (repeat_zero j) "" = repeat_zero j.
Proof.
  induction j as [|j IH]; [reflexivity|].
  cbn [repeat_zero rev_string]. rewrite rev_string_acc, IH. apply zeros_snoc.
Qed.

Lemma strip_keeps c rest count :
  c <> "0"%char -> strip_zeros_rev (String c rest) count = (String c rest, count).
Proof.
  intros H. destruct c as [[] [] [] [] [] [] [] []]; try reflexivity. congruence.
Qed.

Lemma strip_spec r0 :
  forall count, exists j r,
    strip_zeros_rev r0 count = (r, count + Z.of_nat j)
    /\ r0 = repeat_zero j ++ r /\ no_leading_zero r = true.
Proof.
  induction r0 as [|c r0 IH]; intros count.
  - exists 0%nat, "". split; [cbn; f_equal; lia | split; reflexivity].
  - destruct (Ascii.eqb_spec c "0") as [->|Hc].
    + destruct (IH (count + 1)) as (j & r & E & -> & Hr).
      exists (S j), r. split; [|split; [reflexivity | exact Hr]].
      cbn [strip_zeros_rev]. rewrite E. f_equal. lia.
    + exists 0%nat, (String c r0). split; [|split; [reflexivity|]].
      * rewrite strip_keeps by exact Hc. f_equal. lia.
      * cbn. apply negb_true_iff, Ascii.eqb_neq, Hc.
Qed.

Lemma strip_exact a r count :
  no_leading_zero r = true ->
  strip_zeros_rev (repeat_zero a ++ r) count = (r, count + Z.of_nat a).
Proof.
  intros Hr. revert count. induction a as [|a IH]; intros count.
  - cbn [repeat_zero append]. rewrite Z.add_0_r.
    destruct r as [|c r]; [reflexivity|]. apply strip_keeps.
    cbn in Hr. apply negb_true_iff, Ascii.eqb_neq in Hr. exact Hr.
  - cbn [repeat_zero append strip_zeros_rev]. rewrite IH. f_equal. lia.
Qed.

Lemma nzhead_head u l : nzhead u <> D0 l.
Proof. induction u; cbn; try discriminate. exact IHu. Qed.

Lemma unorm_head u l : unorm u = D0 l -> l = Nil.
Proof.
  unfold unorm. pose proof (nzhead_head u l) as H.
  destruct (nzhead u); try congruence; intros E; congruence.
Qed.

(** The digits of a positive number do not start with a zero. *)
Lemma digits_of_N_head m c r :
  m <> 0%N -> digits_of_N m = String c r -> c <> "0"%char.
Proof.
  intros Hm E ->. unfold digits_of_N in E.
  pose proof (DecimalN.Unsigned.to_of (N.to_uint m)) as U.
  rewrite DecimalN.Unsigned.of_to in U.
  destruct (N.to_uint m) as [|l| | | | | | | | |] eqn:D; try discriminate E.
  symmetry in U. apply unorm_head in U. subst l.
  apply Hm. rewrite <- (DecimalN.Unsigned.of_to m), D. reflexivity.
Qed.

Lemma digits_as_uint t :
  all_digits t = true -> exists d, NilEmpty.string_of_uint d = t.
Proof.
  induction t as [|c t IH]; intros H.
  - exists Nil. reflexivity.
  - cbn in H. apply andb_true_iff in H. destruct H as [Hc Ht].
    destruct (IH Ht) as [d <-]. apply digit_cases in Hc. cbn [In] in Hc.
    destruct Hc as [<-|[<-|[<-|[<-|[<-|[<-|[<-|[<-|[<-|[<-|[]]]]]]]]]]];
      [exists (D0 d)|exists (D1 d)|exists (D2 d)|exists (D3 d)|exists (D4 d)
      |exists (D5 d)|exists (D6 d)|exists (D7 d)|exists (D8 d)|exists (D9 d)];
      reflexivity.
Qed.

(** A digit string without leading zero is the digits of its value. *)
Lemma digits_of_value c t :
  all_digits (String c t) = true -> c <> "0"%char ->
  digits_of_N (digits_value 0 (String c t)) = String c t.
Proof.
  intros H Hc. destruct (digits_as_uint _ H) as [d E].
  rewrite <- E, uint_value. unfold digits_of_N.
  rewrite DecimalN.Unsigned.to_of.
  destruct d; try reflexivity; cbn in E; [discriminate E|].
  injection E as E _. congruence.
Qed.

(** *** The shortest digits *)

Lemma shortest_spec m e :
  exists s j,
    shortest m e = (s, Z.of_nat (String.length s), e + Z.of_nat j + Z.of_nat (String.length s))
    /\ digits_of_N m = s ++ repeat_zero j
    /\ no_leading_zero (rev_string s "") = true.
Proof.
  unfold shortest.
  destruct (strip_spec (rev_string (digits_of_N m) "") 0) as (j & r & E & D & Hr).
  rewrite E. exists (rev_string r ""), j. split; [|split].
  - rewrite Z.add_0_l. reflexivity.
  - rewrite <- (rev_string_involutive (digits_of_N m)), D, rev_string_app, rev_zeros.
    reflexivity.
  - rewrite rev_string_involutive. exact Hr.
Qed.

(** The digits [s], followed by [a] zeros, are the shortest digits of the
    number they denote when [s] neither starts nor ends with a zero. *)
Lemma canonical_shortest c s' a e :
  let s := String c s' in
  all_digits s = true -> c <> "0"%char ->
  no_leading_zero (rev_string s "") = true ->
  digits_value 0 (s ++ repeat_zero a) <> 0%N
  /\ shortest (digits_value 0 (s ++ repeat_zero a)) e
     = (s, Z.of_nat (String.length s), e + Z.of_nat a + Z.of_nat (String.length s)).
Proof.
  intros s Hd Hc Hr.
  assert (D : digits_of_N (digits_value 0 (s ++ repeat_zero a)) = s ++ repeat_zero a).
  { subst s. cbn [append]. apply digits_of_value; [|exact Hc].
    change (all_digits (String c s' ++ repeat_zero a) = true).
    rewrite all_digits_app, Hd, all_digits_zeros. reflexivity. }
  split.
  - intros Z. rewrite Z in D. subst s. cbn in D. injection D as D _. congruence.
  - unfold shortest. rewrite D, rev_string_app, rev_zeros, strip_exact by exact Hr.
    rewrite rev_string_involutive, Z.add_0_l. reflexivity.
Qed.

Lemma shortest_value m s j :
  digits_of_N m = s ++ repeat_zero j ->
  all_digits s = true /\ (digits_value 0 s * 10 ^ N.of_nat j)%N = m.
Proof.
  intros D. split.
  - pose proof (digits_of_N_digits m) as H. rewrite D, all_digits_app in H.
    apply andb_true_iff in H. apply H.
  - pose proof (digits_of_N_value m) as H.
    rewrite D, digits_value_app, digits_value_zeros in H. exact H.
Qed.

(** *** Parsing the five formats of [Number::toString] *)

Lemma take_drop n s : take n s ++ drop n s = s.
Proof.
  revert s. induction n as [|n IH]; intros [|c s]; cbn; try reflexivity.
  rewrite IH. reflexivity.
Qed.

Lemma length_drop n s : String.length (drop n s) = (String.length s - n)%nat.
Proof.
  revert s. induction n as [|n IH]; intros [|c s]; cbn; try reflexivity.
  apply IH.
Qed.

Lemma all_digits_take_drop n s :
  all_digits s = true -> all_digits (take n s) = true /\ all_digits (drop n s) = true.
Proof.
  intros H. rewrite <- (take_drop n s), all_digits_app in H.
  apply andb_true_iff in H. exact H.
Qed.

Lemma parse_integer ip rest :
  all_digits ip = true -> ip <> "" ->
  rest = "" \/ (exists x, rest = String "e" x) ->
  parse_unsigned (ip ++ rest) = Some (digits_value 0 ip, exponent_part rest).
Proof.
  intros Hd Hne Hrest. unfold parse_unsigned.
  rewrite span_digits_app; [|exact Hd|destruct Hrest as [->|[x ->]]; reflexivity].
  assert (E : (match rest with
               | String "." r => span_digits r
               | _ => ("", rest)
               end) = ("", rest)) by (destruct Hrest as [->|[x ->]]; reflexivity).
  rewrite E.
  destruct (String.eqb_spec ip ""); [contradiction|].
  cbn [andb]. rewrite append_empty_r, Z.sub_0_r. reflexivity.
Qed.

Lemma parse_fraction ip fp rest :
  all_digits ip = true -> all_digits fp = true -> ip <> "" ->
  rest = "" \/ (exists x, rest = String "e" x) ->
  parse_unsigned (ip ++ "." ++ fp ++ rest)
  = Some (digits_value 0 (ip ++ fp), exponent_part rest - Z.of_nat (String.length fp)).
Proof.
  intros Hi Hf Hne Hrest. unfold parse_unsigned.
  rewrite span_digits_app; [|exact Hi|reflexivity].
  cbn [append].
  rewrite span_digits_app; [|exact Hf|destruct Hrest as [->|[x ->]]; reflexivity].
  destruct (String.eqb_spec ip ""); [contradiction|]. reflexivity.
Qed.

Lemma exponent_signed (neg : bool) a :
  exponent_part ("e" ++ (if neg then "-" else "+") ++ digits_of_N a)
  = if neg then - Z.of_N a else Z.of_N a.
Proof.
  destruct neg; cbn [append exponent_part Ascii.eqb Bool.eqb orb];
    rewrite <- (append_empty_r (digits_of_N a)),
      span_digits_app, digits_of_N_value
      by (try apply digits_of_N_digits; reflexivity);
    reflexivity.
Qed.

Lemma length_zeros j : String.length (repeat_zero j) = j.
Proof. induction j as [|j IH]; cbn; [|rewrite IH]; reflexivity. Qed.

Lemma digits_value_leading_zeros j s :
  digits_value 0 (repeat_zero j ++ s) = digits_value 0 s.
Proof.
  rewrite digits_value_app, digits_value_zeros. reflexivity.
Qed.

Lemma nonempty_append c (x y : string) : (String c x ++ y)%string <> ""%string.
Proof. cbn. discriminate. Qed.

Local Open Scope Q_scope.

Lemma value_scaled (v m : N) (j : nat) (e : Z) :
  (v * 10 ^ N.of_nat j)%N = m ->
  inject_Z (Z.of_N v) * (10 # 1) ^ (e + Z.of_nat j)
  == inject_Z (Z.of_N m) * (10 # 1) ^ e.
Proof.
  intros <-. rewrite N2Z.inj_mul, N2Z.inj_pow, nat_N_Z. change (Z.of_N 10) with 10%Z.
  rewrite inject_Z_mult, Zpower_Qpower by lia.
  rewrite Qpower_plus by discriminate.
  change (inject_Z 10) with (10 # 1). ring.
Qed.

(** The text of a positive number is a literal that starts with a digit;
    it parses to a number of the same value, and of the same text. *)
Lemma parse_positive m e :
  m <> 0%N ->
  exists m' e',
    parse_unsigned (positive_to_string m e) = Some (m', e')
    /\ inject_Z (Z.of_N m') * (10 # 1) ^ e' == inject_Z (Z.of_N m) * (10 # 1) ^ e
    /\ (exists c r, positive_to_string m e = String c r /\ is_digit c = true)
    /\ m' <> 0%N
    /\ shortest m' e' = shortest m e.
Proof.
  intros Hm.
  destruct (shortest_spec m e) as (s & j & E & D & Hr).
  destruct (shortest_value m s j D) as [Hd Hv].
  destruct s as [|c0 s'].
  { exfalso. apply Hm. rewrite <- Hv. reflexivity. }
  assert (Hc0 : is_digit c0 = true /\ all_digits s' = true)
    by (apply andb_true_iff; exact Hd).
  destruct Hc0 as [Hc0 Hs'].
  assert (Hz : c0 <> "0"%char) by (apply (digits_of_N_head m c0 _ Hm D)).
  unfold positive_to_string. rewrite E.
  set (s := String c0 s') in *.
  set (k := Z.of_nat (String.length s)) in *.
  set (n := (e + Z.of_nat j + k)%Z) in *.
  assert (Hk : (k = Z.of_nat (String.length s') + 1)%Z) by (subst k s; cbn [String.length]; lia).
  assert (V : inject_Z (Z.of_N (digits_value 0 s)) * (10 # 1) ^ (n - k)
              == inject_Z (Z.of_N m) * (10 # 1) ^ e).
  { replace (n - k)%Z with (e + Z.of_nat j)%Z by (subst n; lia).
    apply value_scaled, Hv. }
  assert (S0 : digits_value 0 s <> 0%N /\ shortest (digits_value 0 s) (n - k) = (s, k, n)).
  { destruct (canonical_shortest c0 s' 0 (n - k) Hd Hz Hr) as [A B].
    fold s in A, B. cbn [repeat_zero] in A, B. rewrite append_empty_r in A, B.
    split; [exact A|]. rewrite B. fold k. f_equal. lia. }
  destruct S0 as [S0 S1].
  destruct ((k <=? n)%Z && (n <=? 21)%Z) eqn:C1.
  { apply andb_true_iff in C1. destruct C1 as [C1 _]. apply Z.leb_le in C1.
    exists (digits_value 0 (s ++ repeat_zero (Z.to_nat (n - k)))), 0%Z.
    destruct (canonical_shortest c0 s' (Z.to_nat (n - k)) 0 Hd Hz Hr) as [A B].
    fold s in A, B.
    split; [|split; [|split; [|split; [exact A|]]]].
    - rewrite <- (append_empty_r (s ++ _)) at 1.
      rewrite parse_integer; [reflexivity| | |left; reflexivity].
      + rewrite all_digits_app, Hd, all_digits_zeros. reflexivity.
      + apply nonempty_append.
    - rewrite digits_value_app, digits_value_zeros.
      rewrite <- V, N2Z.inj_mul, N2Z.inj_pow, nat_N_Z, Z2Nat.id by lia.
      change (Z.of_N 10) with 10%Z.
      rewrite inject_Z_mult, Zpower_Qpower by lia.
      change (inject_Z 10) with (10 # 1). cbn [Qpower]. ring.
    - exists c0, (s' ++ repeat_zero (Z.to_nat (n - k)))%string.
      split; [reflexivity | exact Hc0].
    - rewrite B. fold k. f_equal. lia. }
  destruct ((0 <? n)%Z && (n <=? 21)%Z) eqn:C2.
  { apply andb_true_iff in C2. destruct C2 as [C2 C2'].
    rewrite C2', andb_true_r in C1. apply Z.leb_gt in C1. apply Z.ltb_lt in C2.
    destruct (all_digits_take_drop (Z.to_nat n) s Hd) as [Ht Hdr].
    exists (digits_value 0 s), (n - k)%Z.
    split; [|split; [exact V|split; [|split; [exact S0|exact S1]]]].
    - rewrite <- (append_empty_r (drop _ s)).
      rewrite parse_fraction; [|exact Ht|exact Hdr| |left; reflexivity].
      + rewrite take_drop, length_drop. cbn [exponent_part]. f_equal. f_equal.
        subst k. lia.
      + destruct (Z.to_nat n) eqn:Z; [lia|]. subst s. discriminate.
    - destruct (Z.to_nat n) eqn:Z; [lia|]. subst s. cbn [take append].
      eexists _, _. split; [reflexivity | exact Hc0]. }
  destruct ((-6 <? n)%Z && (n <=? 0)%Z) eqn:C3.
  { apply andb_true_iff in C3. destruct C3 as [_ C3]. apply Z.leb_le in C3.
    exists (digits_value 0 s), (n - k)%Z.
    split; [|split; [exact V|split; [|split; [exact S0|exact S1]]]].
    - change ("0." ++ repeat_zero (Z.to_nat (- n)) ++ s)%string
        with ("0" ++ "." ++ (repeat_zero (Z.to_nat (- n)) ++ s))%string.
      rewrite <- (append_empty_r (repeat_zero _ ++ s)).
      rewrite parse_fraction; [| reflexivity | | discriminate | left; reflexivity].
      + change ("0" ++ repeat_zero (Z.to_nat (- n)) ++ s)%string
          with (repeat_zero (S (Z.to_nat (- n))) ++ s)%string.
        rewrite digits_value_leading_zeros, length_append, length_zeros.
        cbn [exponent_part]. f_equal. f_equal. subst k. lia.
      + rewrite all_digits_app, all_digits_zeros. exact Hd.
    - eexists _, _. split; reflexivity. }
  exists (digits_value 0 s), (n - k)%Z.
  assert (X : exponent_part
                ("e" ++ (if (n - 1 <? 0)%Z then "-" else "+")
                     ++ digits_of_N (Z.abs_N (n - 1))) = (n - 1)%Z).
  { rewrite exponent_signed, N2Z.inj_abs_N.
    destruct (Z.ltb_spec (n - 1) 0); lia. }
  destruct (k =? 1)%Z eqn:C4.
  { apply Z.eqb_eq in C4.
    split; [|split; [exact V|split; [|split; [exact S0|exact S1]]]].
    - rewrite parse_integer; [|exact Hd|subst s; discriminate|right; eexists; reflexivity].
      rewrite X. f_equal. f_equal. lia.
    - subst s. eexists _, _. split; [reflexivity | exact Hc0]. }
  split; [|split; [exact V|split; [|split; [exact S0|exact S1]]]].
  - subst s. cbn [take drop].
    rewrite parse_fraction; [|cbn [all_digits]; rewrite Hc0; reflexivity|exact Hs'|discriminate
                             |right; eexists; reflexivity].
    rewrite X. cbn [append].
    change (digits_value 0 (String c0 s')) with (digits_value 0 (String c0 "" ++ s')).
    f_equal. f_equal. lia.
  - subst s. eexists _, _. split; [reflexivity | exact Hc0].
Qed.

Local Open Scope Z_scope.

(** *** The sign and the leading white space *)

Lemma not_whitespace c :
  is_digit c = true \/ c = "-"%char ->
  ws1 c = false /\ (forall b, ws2 c b = false) /\ (forall b d, ws3 c b d = false).
Proof.
  intros [H | ->]; [apply digit_cases in H; cbn [In] in H|];
    repeat (destruct H as [<- | H]; [repeat split|]); try contradiction;
    repeat split.
Qed.

Lemma trim_start_literal c r :
  is_digit c = true \/ c = "-"%char -> trim_start (String c r) = String c r.
Proof.
  intros H. destruct (not_whitespace c H) as (W1 & W2 & W3).
  cbn [trim_start]. rewrite W1.
  destruct r as [|b [|d r3]]; rewrite ?W2, ?W3; reflexivity.
Qed.

Lemma parseFloat_unsigned c r :
  is_digit c = true ->
  parseFloat (String c r) =
  match parse_unsigned (String c r) with
  | Some (m, e) => Finite false m e
  | None => NaN
  end.
Proof.
  intros H. unfold parseFloat. rewrite trim_start_literal by (left; exact H).
  apply digit_cases in H. cbn [In] in H.
  repeat (destruct H as [<- | H]; [reflexivity|]). contradiction.
Qed.

Lemma parseFloat_negative c r :
  is_digit c = true ->
  parseFloat (String "-" (String c r)) =
  match parse_unsigned (String c r) with
  | Some (m, e) => Finite true m e
  | None => NaN
  end.
Proof.
  intros H. unfold parseFloat. rewrite trim_start_literal by (right; reflexivity).
  apply digit_cases in H. cbn [In] in H.
  repeat (destruct H as [<- | H]; [reflexivity|]). contradiction.
Qed.



Lemma same_value_within lo hi x y :
  same_value x y -> (within lo hi x <-> within lo hi y).
Proof.
  destruct x, y; cbn; try tauto. intros ->. reflexivity.
Qed.

(** Parsing the text of a number gives back a number of the same value
    and of the same text. *)
Lemma parseFloat_number_to_string x :
  same_value (parseFloat (number_to_string x)) x
  /\ number_to_string (parseFloat (number_to_string x)) = number_to_string x.
Proof.
  destruct x as [|[]|neg m e]; try (split; [exact I | reflexivity]);
    try (split; reflexivity).
  cbn [number_to_string]. destruct (N.eqb_spec m 0) as [->|Hm].
  - split; [|reflexivity]. cbn. unfold to_Q. cbn [Z.of_N inject_Z]. destruct neg; ring.
  - destruct (parse_positive m e Hm) as (m' & e' & P & V & (c & r & E & Hc) & Hm' & S).
    assert (T : positive_to_string m' e' = positive_to_string m e)
      by (unfold positive_to_string; rewrite S; reflexivity).
    apply N.eqb_neq in Hm'.
    rewrite E in P |- *. destruct neg; cbn [append].
    + rewrite parseFloat_negative, P by exact Hc. split.
      * cbn [same_value]. unfold to_Q. rewrite V. reflexivity.
      * cbn [number_to_string]. rewrite Hm', T, E. reflexivity.
    + rewrite parseFloat_unsigned, P by exact Hc. split; [exact V|].
      cbn [number_to_string]. rewrite Hm', T, E. reflexivity.
Qed.

End NumberTexts.

(** ** Coordinate guard *)

Section Numbers.

Local Open Scope Q_scope.

Lemma ten_positive (k : Z) : 0 < (10 # 1) ^ k.
Proof. apply Qpower_0_lt. reflexivity. Qed.

(** Scaling to a common exponent keeps the value, up to the factor
    [10^lo]. *)
Lemma scaled_value neg m e lo :
  (lo <= e)%Z ->
  inject_Z (scaled neg m e lo) * (10 # 1) ^ lo == to_Q neg m e.
Proof.
  intros Hle. unfold scaled, to_Q.
  assert (E : inject_Z (Z.of_N m * 10 ^ (e - lo)) * (10 # 1) ^ lo
              == inject_Z (Z.of_N m) * (10 # 1) ^ e).
  { rewrite inject_Z_mult, Zpower_Qpower by lia.
    rewrite <- Qmult_assoc, <- Qpower_plus by discriminate.
    replace (e - lo + lo)%Z with e by lia. reflexivity. }
  destruct neg.
  - rewrite inject_Z_opp, <- E. ring.
  - exact E.
Qed.

(** [ltb] on finite numbers is the order of their values. *)
Lemma ltb_finite nx mx ex ny my ey :
  ltb (Finite nx mx ex) (Finite ny my ey) = true
  <-> to_Q nx mx ex < to_Q ny my ey.
Proof.
  cbn [ltb]. set (lo := Z.min ex ey).
  rewrite <- (scaled_value nx mx ex lo), <- (scaled_value ny my ey lo)
    by (subst lo; lia).
  rewrite Qmult_lt_r by apply ten_positive.
  rewrite <- Zlt_Qlt. apply Z.ltb_lt.
Qed.

Lemma of_Z_value z : to_Q (z <? 0)%Z (Z.abs_N z) 0 == inject_Z z.
Proof.
  unfold to_Q. rewrite N2Z.inj_abs_N. cbn [Qpower].
  destruct (Z.ltb_spec z 0).
  - rewrite Qmult_1_r, <- inject_Z_opp. rewrite Z.abs_neq by lia.
    rewrite Z.opp_involutive. reflexivity.
  - rewrite Qmult_1_r, Z.abs_eq by lia. reflexivity.
Qed.

(** The two comparisons against the bounds decide [outside]. *)
Lemma outside_decided lo hi x :
  ltb x (of_Z lo) || gtb x (of_Z hi) = true <-> outside lo hi x.
Proof.
  rewrite orb_true_iff. destruct x as [|n|n m e].
  - cbn. intuition discriminate.
  - destruct n; cbn; intuition.
  - unfold gtb, of_Z, outside. rewrite !ltb_finite, !of_Z_value. reflexivity.
Qed.

Lemma within_decided lo hi x :
  isNaN x || ltb x (of_Z lo) || gtb x (of_Z hi) = false <-> within lo hi x.
Proof.
  rewrite <- orb_assoc, orb_false_iff.
  rewrite <- (not_true_iff_false (ltb _ _ || _)), outside_decided.
  destruct x as [|n|n m e]; cbn [isNaN outside within].
  - intuition discriminate.
  - intuition.
  - split.
    + intros [_ H]. split; apply Qnot_lt_le; intro; apply H; auto.
    + intros [H1 H2]. split; [reflexivity|].
      intros [H|H]; [apply (Qlt_not_le _ _ H H1) | apply (Qlt_not_le _ _ H H2)].
Qed.

End Numbers.

Section Guard.

Import StationDetailsGuarded.

Lemma invalid_coordinates_false la ln :
  invalid_coordinates la ln = false
  <-> within (-90) 90 la /\ within (-180) 180 ln.
Proof.
  rewrite <- !within_decided. unfold invalid_coordinates.
  destruct (isNaN la), (isNaN ln), (ltb la (of_Z (-90))), (gtb la (of_Z 90)),
    (ltb ln (of_Z (-180))), (gtb ln (of_Z 180)); cbn; intuition discriminate.
Qed.







End Guard.

Section Directions.

Import StationDetailsGuarded.

Variable station : ChargingStation.

Lemma guarded_rejects :
  invalid_coordinates (parseFloat (to_string station.(lat))) 
    (parseFloat (to_string station.(lng))) = true ->
  handleGetDirections station = [ConsoleError "Invalid coordinates"].
Proof.
  intros H. unfold handleGetDirections. rewrite H. reflexivity.
Qed.

Lemma guarded_opens :
  invalid_coordinates (parseFloat (to_string station.(lat))) 
    (parseFloat (to_string station.(lng))) = false ->
  handleGetDirections station =
  [WindowOpen (directions_base
               ++ encodeURIComponent (number_to_string (parseFloat (to_string station.(lat))))
               ++ ","
               ++ encodeURIComponent (number_to_string (parseFloat (to_string station.(lng)))))
     "_blank"].
Proof.
  intros H. unfold handleGetDirections. rewrite H. reflexivity.
Qed.

(** Coordinates that are numbers: what the handler parses has the value
    and the text of the fields. *)
Lemma numeric_texts x y :
  station.(lat) = VNumber x -> station.(lng) = VNumber y ->
  number_to_string (parseFloat (to_string station.(lat))) = number_to_string x
  /\ number_to_string (parseFloat (to_string station.(lng))) = number_to_string y.
Proof.
  intros Hx Hy. rewrite Hx, Hy. cbn [to_string].
  split; apply parseFloat_number_to_string.
Qed.

Lemma numeric_valid x y :
  station.(lat) = VNumber x -> station.(lng) = VNumber y ->
  (within (-90) 90 (parseFloat (to_string station.(lat)))
   /\ within (-180) 180 (parseFloat (to_string station.(lng))))
  <-> (within (-90) 90 x /\ within (-180) 180 y).
Proof.
  intros Hx Hy. rewrite Hx, Hy. cbn [to_string].
  rewrite (same_value_within _ _ _ x (proj1 (parseFloat_number_to_string x))).
  rewrite (same_value_within _ _ _ y (proj1 (parseFloat_number_to_string y))).
  reflexivity.
Qed.




End Directions.

(** The guarded handler meets [guarded]. *)
Lemma guarded_variant_guarded : guarded StationDetailsGuarded.handleGetDirections.
Proof.
  intros station url target Hin la ln.
  destruct (StationDetailsGuarded.invalid_coordinates la ln) eqn:E.
  - rewrite (guarded_rejects station E) in Hin.
    destruct Hin as [Hin|[]]. discriminate Hin.
  - rewrite (guarded_opens station E) in Hin.
    apply invalid_coordinates_false in E. destruct E as [E1 E2].
    destruct Hin as [Hin|[]]. injection Hin as <- _. auto.
Qed.





(** C2.  The second StationDetails builds the directions URL from the raw
    fields, without parsing, range check or encoding: for latitude 999
    and longitude -80.19 it opens a URL, where the guarded variant
    refuses.  So not every directions handler of the program is guarded. *)
Theorem raw_directions_unguarded :
  StationDetailsRaw.handleGetDirections far_north
  = [WindowOpen "https://maps.google.com/?q=999,-80.19" "_blank"]
  /\ StationDetailsGuarded.handleGetDirections far_north
     = [ConsoleError "Invalid coordinates"]
  /\ guarded StationDetailsGuarded.handleGetDirections
  /\ ~ guarded StationDetailsRaw.handleGetDirections
  /\ ~ Forall guarded directions_handlers.
Proof.
  assert (R : ~ guarded StationDetailsRaw.handleGetDirections).
  { intros G.
    destruct (G far_north "https://maps.google.com/?q=999,-80.19" "_blank"
                (or_introl eq_refl)) as [[_ H] _].
    vm_compute in H. apply H. reflexivity. }
  split; [reflexivity|]. split; [reflexivity|].
  split; [exact guarded_variant_guarded|]. split; [exact R|].
  intros F. apply R. apply (proj1 (Forall_forall _ _) F). right; left; reflexivity.
Qed.

(** ** Navigation state machine and session state *)

Section Navigation.

Import App.

Variable offered : list ChargingStation.

Lemma strict_eq_string_true v s : strict_eq_string v s = true <-> v = VString s.
Proof.
  destruct v; cbn; try (split; [discriminate | intros E; discriminate E]).
  rewrite String.eqb_eq. split; [intros -> | intros E; injection E]; auto.
Qed.

Lemma button_disabled station :
  charge_button_disabled station = true <-> station.(status) <> VString "available".
Proof.
  unfold charge_button_disabled. rewrite negb_true_iff, <- not_true_iff_false.
  rewrite strict_eq_string_true. reflexivity.
Qed.

(** No event other than a scan result changes [isCharging], and a scan
    result sets it. *)
Lemma dispatch_charging ev st :
  isCharging (fst (dispatch offered ev st)) = isCharging st
  \/ (exists payload, ev = ScanResult payload)
     /\ currentView st = View_scanner
     /\ isCharging (fst (dispatch offered ev st)) = true.
Proof.
  destruct ev; cbn [dispatch];
    try (left; reflexivity);
    try (destruct (currentView st) eqn:V; cbn; try (left; reflexivity)).
  - destruct (nth_error offered i); left; reflexivity.
  - destruct (selectedStation st) as [s|]; [|left; reflexivity].
    destruct (charge_button_disabled s); left; reflexivity.
  - destruct (selectedStation st); left; reflexivity.
  - right. eauto.
Qed.

Lemma dispatch_keeps_charging ev st :
  isCharging st = true -> isCharging (fst (dispatch offered ev st)) = true.
Proof.
  intros H. destruct (dispatch_charging ev st) as [E | (_ & _ & E)]; congruence.
Qed.

Lemma run_keeps_charging evs :
  forall st, isCharging st = true -> isCharging (run offered evs st) = true.
Proof.
  induction evs as [|ev evs IH]; intros st H; cbn [run].
  - exact H.
  - apply IH, dispatch_keeps_charging, H.
Qed.

End Navigation.

(** C4, as stated, fails: [handleStartCharging] has no guard of its own.
    Invoked in Details on the busy station of the feed, it moves to
    Scanner. *)
Lemma startCharging_is_unguarded :
  let busy := nth 1 App.stations negative_ports in
  let in_details := {| App.currentView := App.View_details;
                       App.selectedStation := Some busy;
                       App.isCharging := false |} in
  busy.(status) = VString "busy"
  /\ App.currentView (App.handleStartCharging in_details) = App.View_scanner
  /\ ~ (forall st station,
          App.currentView st = App.View_details ->
          App.selectedStation st = Some station ->
          station.(status) <> VString "available" ->
          App.handleStartCharging st = st).
Proof.
  intros busy in_details. split; [reflexivity|]. split; [reflexivity|].
  intros H. specialize (H in_details busy eq_refl eq_refl).
  assert (D : status busy <> VString "available") by discriminate.
  specialize (H D). discriminate H.
Qed.

(** C4 (amended).  In Details on a station whose status is not
    ['available'] the charge button is disabled, so a click on it changes
    nothing and the view stays Details; this guard is the button's alone:
    [handleStartCharging] itself moves to Scanner whenever it is called.
    From Map, selecting an offered, validated station of status
    ['available'] and then clicking the charge button reaches Scanner with
    that station selected. *)
Theorem charge_guard_at_button :
  forall offered : list ChargingStation,
    (forall st station,
       App.currentView st = App.View_details ->
       App.selectedStation st = Some station ->
       station.(status) <> VString "available" ->
       App.dispatch offered App.ClickCharge st = (st, [])
       /\ App.currentView (App.handleStartCharging st) = App.View_scanner)
    /\ (forall st i station,
          App.currentView st = App.View_map ->
          nth_error offered i = Some station ->
          MapViewHardened.validateStation station = true ->
          station.(status) = VString "available" ->
          App.run offered [App.SelectStation i; App.ClickCharge] st
          = {| App.currentView := App.View_scanner;
               App.selectedStation := Some station;
               App.isCharging := App.isCharging st |}).
Proof.
  intros offered. split.
  - intros st station Hv Hs Hstatus. split; [|reflexivity].
    apply button_disabled in Hstatus.
    cbn [App.dispatch]. rewrite Hv, Hs, Hstatus. reflexivity.
  - intros st i station Hv Hi _ Hstatus.
    cbn [App.run App.dispatch]. rewrite Hv, Hi. cbn.
    unfold charge_button_disabled. rewrite Hstatus. reflexivity.
Qed.

Lemma charge_guard_at_button_witness :
  let offered := map view_details (MapViewHardened.markers App.stations) in
  let busy := nth 1 App.stations negative_ports in
  let free := nth 0 App.stations negative_ports in
  let in_details := {| App.currentView := App.View_details;
                       App.selectedStation := Some busy;
                       App.isCharging := false |} in
  App.dispatch offered App.ClickCharge in_details = (in_details, [])
  /\ App.run offered [App.SelectStation 0; App.ClickCharge] App.initial
     = {| App.currentView := App.View_scanner;
          App.selectedStation := Some free;
          App.isCharging := false |}.
Proof.
  intros offered busy free in_details.
  destruct (charge_guard_at_button offered) as [Hbusy Hfree].
  split.
  - apply (Hbusy in_details busy); [reflexivity | reflexivity | discriminate].
  - apply (Hfree App.initial 0%nat free); reflexivity.
Defined.

(** C8.  In Scanner, a scan result with any payload runs [handleQRScan]:
    the view becomes Map and [isCharging] becomes true, the selected
    station is kept, and the payload only appears in the log line: the
    resulting state is the same for every payload. *)
Theorem scan_starts_session :
  forall (offered : list ChargingStation) (payload : string) (st : App.AppState),
    App.currentView st = App.View_scanner ->
    App.dispatch offered (App.ScanResult payload) st
    = ({| App.currentView := App.View_map;
          App.selectedStation := App.selectedStation st;
          App.isCharging := true |},
       [ConsoleLog ["QR Code scanned:"; payload]])
    /\ forall other,
         fst (App.handleQRScan other st) = fst (App.handleQRScan payload st).
Proof.
  intros offered payload st Hv. split; [|reflexivity].
  cbn [App.dispatch]. rewrite Hv. reflexivity.
Qed.

Lemma scan_starts_session_witness :
  let offered := map view_details (MapViewHardened.markers App.stations) in
  let in_scanner :=
    App.run offered [App.SelectStation 0; App.ClickCharge] App.initial in
  App.currentView in_scanner = App.View_scanner
  /\ fst (App.dispatch offered (App.ScanResult "SESSION-OK") in_scanner)
     = {| App.currentView := App.View_map;
          App.selectedStation := Some (nth 0 App.stations negative_ports);
          App.isCharging := true |}.
Proof.
  intros offered in_scanner.
  assert (Hv : App.currentView in_scanner = App.View_scanner) by reflexivity.
  split; [exact Hv|].
  rewrite (proj1 (scan_starts_session offered "SESSION-OK" in_scanner Hv)).
  reflexivity.
Defined.

(** C10.  [isCharging] starts false; the handlers other than
    [handleQRScan] keep it; an event changes it only if it is a scan
    result received in Scanner, which sets it to true; hence once true it
    stays true along every sequence of events. *)
Theorem charging_is_monotone :
  forall offered : list ChargingStation,
    App.isCharging App.initial = false
    /\ (forall v s st,
          App.isCharging (App.setCurrentView v st) = App.isCharging st
          /\ App.isCharging (App.handleStationSelect s st) = App.isCharging st
          /\ App.isCharging (App.handleStartCharging st) = App.isCharging st)
    /\ (forall ev st,
          App.isCharging (fst (App.dispatch offered ev st)) <> App.isCharging st ->
          (exists payload, ev = App.ScanResult payload)
          /\ App.currentView st = App.View_scanner
          /\ App.isCharging (fst (App.dispatch offered ev st)) = true)
    /\ (forall evs st,
          App.isCharging st = true ->
          App.isCharging (App.run offered evs st) = true).
Proof.
  intros offered. split; [reflexivity|]. split; [intros; repeat split|]. split.
  - intros ev st Hneq.
    destruct (dispatch_charging offered ev st) as [E|H]; [contradiction | exact H].
  - intros evs st. apply run_keeps_charging.
Qed.

Lemma charging_is_monotone_witness :
  let offered := map view_details (MapViewHardened.markers App.stations) in
  let charging :=
    App.run offered
      [App.SelectStation 0; App.ClickCharge; App.ScanResult "SESSION-OK"]
      App.initial in
  App.isCharging charging = true
  /\ App.isCharging
       (App.run offered
          [App.NavProfile; App.ProfileBack; App.SelectStation 1; App.DetailsBack;
           App.NavScan; App.ScannerBack; App.NavFind]
          charging) = true.
Proof.
  intros offered charging.
  assert (H : App.isCharging charging = true) by reflexivity.
  split; [exact H|].
  apply (proj2 (proj2 (proj2 (charging_is_monotone offered)))). exact H.
Defined.

(** * Further properties *)

(** ** Navigation: the selected station *)

Section Selection.

Import App.

Variable offered : list ChargingStation.

(** An event keeps the selection, or is a selection made on the map. *)
Lemma dispatch_selection ev st :
  selectedStation (fst (dispatch offered ev st)) = selectedStation st
  \/ exists i station,
       ev = SelectStation i /\ currentView st = View_map
       /\ nth_error offered i = Some station
       /\ fst (dispatch offered ev st)
          = {| currentView := View_details;
               selectedStation := Some station;
               isCharging := isCharging st |}.
Proof.
  destruct ev; cbn [dispatch];
    try (left; reflexivity);
    try (destruct (currentView st) eqn:V; cbn; try (left; reflexivity)).
  - destruct (nth_error offered i) as [station|] eqn:E; [|left; reflexivity].
    right. exists i, station. repeat split; assumption.
  - destruct (selectedStation st) as [s|] eqn:S; [|left; cbn; congruence].
    destruct (charge_button_disabled s); left; cbn; congruence.
  - destruct (selectedStation st) eqn:S; left; cbn; congruence.
Qed.

Lemma run_selection_offered evs :
  forall st,
    (forall s, selectedStation st = Some s -> In s offered) ->
    forall s, selectedStation (run offered evs st) = Some s -> In s offered.
Proof.
  induction evs as [|ev evs IH]; intros st Hst s; cbn [run]; [apply Hst|].
  apply IH. intros s' Hs'.
  destruct (dispatch_selection ev st) as [E | (i & station & _ & _ & Hi & E)].
  - rewrite E in Hs'. apply Hst, Hs'.
  - rewrite E in Hs'. cbn in Hs'. injection Hs' as <-.
    apply (nth_error_In _ _ Hi).
Qed.

Lemma run_selection_kept evs :
  forall st, selectedStation st <> None -> selectedStation (run offered evs st) <> None.
Proof.
  induction evs as [|ev evs IH]; intros st Hst; cbn [run]; [exact Hst|].
  apply IH.
  destruct (dispatch_selection ev st) as [E | (i & station & _ & _ & _ & E)];
    rewrite E; [exact Hst | discriminate].
Qed.

End Selection.

(** X1.  With the hardened MapView offering the stations, whatever the feed
    holds and whatever the user does from the start, the station that
    StationDetails receives is a record of the feed that passed
    [validateStation]. *)
Theorem selected_station_is_validated :
  forall (stations : list ChargingStation) (evs : list App.event) (s : ChargingStation),
    let offered := map view_details (MapViewHardened.markers stations) in
    App.selectedStation (App.run offered evs App.initial) = Some s ->
    In s stations /\ MapViewHardened.validateStation s = true.
Proof.
  intros stations evs s offered H.
  assert (Hin : In s offered).
  { apply (run_selection_offered offered evs App.initial); [|exact H].
    intros s' E. discriminate E. }
  subst offered. unfold MapViewHardened.markers in Hin.
  rewrite map_map in Hin. cbn in Hin. rewrite map_id in Hin.
  apply filter_In in Hin. exact Hin.
Qed.

Lemma selected_station_is_validated_witness :
  let offered := map view_details (MapViewHardened.markers (unknown_status :: App.stations)) in
  App.selectedStation
    (App.run offered [App.SelectStation 1; App.ClickCharge; App.NavFind] App.initial)
  = Some (nth 1 App.stations unknown_status)
  /\ MapViewHardened.validateStation (nth 1 App.stations unknown_status) = true.
Proof.
  intros offered.
  assert (H : App.selectedStation
                (App.run offered [App.SelectStation 1; App.ClickCharge; App.NavFind]
                   App.initial)
              = Some (nth 1 App.stations unknown_status)) by reflexivity.
  split; [exact H|].
  exact (proj2 (selected_station_is_validated (unknown_status :: App.stations) _ _ H)).
Defined.

(** X2.  The selection changes only when a station is selected on the
    map, which also moves to Details; no event clears it, so once a
    station is selected one stays selected for the rest of the session. *)
Theorem selection_is_never_cleared :
  forall (offered : list ChargingStation),
    (forall ev st,
       App.selectedStation (fst (App.dispatch offered ev st)) <> App.selectedStation st ->
       exists i station,
         ev = App.SelectStation i /\ App.currentView st = App.View_map
         /\ nth_error offered i = Some station
         /\ App.selectedStation (fst (App.dispatch offered ev st)) = Some station
         /\ App.currentView (fst (App.dispatch offered ev st)) = App.View_details)
    /\ (forall evs st,
          App.selectedStation st <> None ->
          App.selectedStation (App.run offered evs st) <> None).
Proof.
  intros offered. split.
  - intros ev st Hneq.
    destruct (dispatch_selection offered ev st) as [E | (i & station & Hev & Hv & Hi & E)];
      [contradiction|].
    exists i, station. rewrite E. repeat split; assumption.
  - intros evs st. apply run_selection_kept.
Qed.

Lemma selection_is_never_cleared_witness :
  let offered := map view_details (MapViewHardened.markers App.stations) in
  let selected := App.run offered [App.SelectStation 2] App.initial in
  App.selectedStation selected <> None
  /\ App.selectedStation
       (App.run offered
          [App.DetailsBack; App.NavProfile; App.ProfileBack; App.NavScan;
           App.ScanResult "x"; App.NavFind]
          selected) <> None.
Proof.
  intros offered selected.
  assert (H : App.selectedStation selected <> None) by discriminate.
  split; [exact H|].
  exact (proj2 (selection_is_never_cleared offered) _ selected H).
Defined.

(** X3.  The bottom navigation opens the scanner from any state, and a
    scan result then starts a session: whatever the view and whatever
    station is selected (a busy one, an offline one, or none), Scan
    followed by a scan result ends on the map with [isCharging] true and
    the selection untouched. *)
Theorem scan_from_anywhere_starts_session :
  forall (offered : list ChargingStation) (st : App.AppState) (payload : string),
    App.run offered [App.NavScan; App.ScanResult payload] st
    = {| App.currentView := App.View_map;
         App.selectedStation := App.selectedStation st;
         App.isCharging := true |}.
Proof.
  intros offered st payload. reflexivity.
Qed.

(** X4.  [renderView] mounts nothing in exactly one situation: the view
    is Details and no station is selected.  That situation is reached by
    opening the scanner and going back before any station was selected,
    and there only the bottom navigation responds. *)
Theorem inert_details :
  (forall st,
     AppView.renderView st = None
     <-> App.currentView st = App.View_details /\ App.selectedStation st = None)
  /\ (forall offered st,
        App.selectedStation st = None ->
        AppView.renderView (App.run offered [App.NavScan; App.ScannerBack] st) = None)
  /\ (forall offered ev st,
        AppView.renderView st = None ->
        ev <> App.NavFind -> ev <> App.NavScan -> ev <> App.NavProfile ->
        App.dispatch offered ev st = (st, [])).
Proof.
  split; [|split].
  - intros [v s c]. unfold AppView.renderView. cbn.
    destruct v, s; split; intros H; try discriminate H; try reflexivity;
      try (split; reflexivity); destruct H as [H1 H2]; discriminate.
  - intros offered st H. cbn. rewrite H. reflexivity.
  - intros offered ev [v s c] H. unfold AppView.renderView in H. cbn in H.
    destruct v; try discriminate H. destruct s; [discriminate H|].
    intros H1 H2 H3. destruct ev; try contradiction; reflexivity.
Qed.

Lemma inert_details_witness :
  AppView.renderView (App.run [] [App.NavScan; App.ScannerBack] App.initial) = None
  /\ App.dispatch [] App.ClickCharge (App.run [] [App.NavScan; App.ScannerBack] App.initial)
     = (App.run [] [App.NavScan; App.ScannerBack] App.initial, []).
Proof.
  destruct inert_details as (_ & Hreach & Hinert).
  assert (H : AppView.renderView
                (App.run [] [App.NavScan; App.ScannerBack] App.initial) = None)
    by (apply (Hreach [] App.initial); reflexivity).
  split; [exact H|].
  apply (Hinert [] App.ClickCharge _ H); discriminate.
Defined.

(** ** The search list of the hardened MapView *)

Section Search.

Lemma filter_r_ok {A : Type} (p : A -> result bool) (f : A -> bool) (l : list A) :
  (forall x, In x l -> p x = Ok (f x)) -> filter_r p l = Ok (filter f l).
Proof.
  induction l as [|x l IH]; intros H; cbn; [reflexivity|].
  rewrite (H x (or_introl eq_refl)), IH by (intros; apply H; right; assumption).
  cbn. destruct (f x); reflexivity.
Qed.

Lemma map_r_total {A B : Type} (f : A -> result B) (l : list A) :
  (forall x, In x l -> exists y, f x = Ok y) -> exists ys, map_r f l = Ok ys.
Proof.
  induction l as [|x l IH]; intros H; cbn; [eauto|].
  destruct (H x (or_introl eq_refl)) as [y ->].
  destruct IH as [ys ->]; [intros; apply H; right; assumption|].
  cbn. eauto.
Qed.

Lemma hardened_matches_hit query station :
  MapViewHardened.validateStation station = true ->
  MapViewHardened.matches query station = Ok (search_hit query station).
Proof.
  intros H. apply validated_shape in H.
  destruct H as (i & n & a & la & ln & av & to & co & am & st & -> & _).
  unfold MapViewHardened.matches, search_hit. cbn.
  destruct (includes (toLowerCase n) query); reflexivity.
Qed.

Lemma hardened_card_total station :
  MapViewHardened.validateStation station = true ->
  exists c, MapViewHardened.card station = Ok c.
Proof.
  intros H. apply validated_shape in H.
  destruct H as (i & n & a & la & ln & av & to & co & am & st & -> & _).
  unfold MapViewHardened.card. cbn. eauto.
Qed.

(** The search list in closed form: no TypeError, and a filter of the
    validated stations. *)
Lemma hardened_search_closed stations query :
  MapViewHardened.filteredStations stations query
  = Ok (filter (search_hit (toLowerCase (MapViewHardened.sanitizeText (VString query))))
          (filter MapViewHardened.validateStation stations)).
Proof.
  unfold MapViewHardened.filteredStations. apply filter_r_ok.
  intros x Hx. apply filter_In in Hx. apply hardened_matches_hit, Hx.
Qed.

Lemma hardened_cards_closed stations query :
  exists cs,
    MapViewHardened.cards stations query = Ok cs
    /\ map card_click cs
       = filter (search_hit (toLowerCase (MapViewHardened.sanitizeText (VString query))))
           (filter MapViewHardened.validateStation stations).
Proof.
  unfold MapViewHardened.cards. rewrite hardened_search_closed. cbn [bind].
  destruct (map_r_total MapViewHardened.card
              (filter (search_hit (toLowerCase (MapViewHardened.sanitizeText (VString query))))
                 (filter MapViewHardened.validateStation stations))) as [cs E].
  { intros x Hx. apply filter_In in Hx. destruct Hx as [Hx _].
    apply filter_In in Hx. apply hardened_card_total, Hx. }
  exists cs. split; [exact E|].
  apply (map_r_stations _ _ _ hardened_card_station E).
Qed.

Lemma marker_stations stations :
  map view_details (MapViewHardened.markers stations)
  = filter MapViewHardened.validateStation stations.
Proof.
  unfold MapViewHardened.markers. rewrite map_map. cbn. apply map_id.
Qed.

Lemma includes_empty s : includes s "" = true.
Proof. destruct s; reflexivity. Qed.

Lemma filter_all {A : Type} (f : A -> bool) (l : list A) :
  (forall x, f x = true) -> filter f l = l.
Proof.
  intros H. induction l as [|x l IH]; cbn; [reflexivity|]. rewrite H, IH. reflexivity.
Qed.

(** The amenity tags are built unless an amenity cannot be turned into a
    string. *)
Lemma amenity_tags_completion elems :
  map_r (fun amenity =>
           safeAmenity <- WithTypeError.sanitizeText amenity ;;
           Ok (Html safeAmenity)) elems
  = if forallb (fun amenity => negb (to_string_throws amenity)) elems
    then Ok (map (fun amenity => Html (MapViewHardened.sanitizeText amenity)) elems)
    else Throw "TypeError".
Proof.
  induction elems as [|a l IH]; cbn [map_r forallb map]; [reflexivity|].
  rewrite sanitize_completion.
  destruct (to_string_throws a); cbn [bind negb andb]; [reflexivity|].
  rewrite IH.
  destruct (forallb (fun amenity => negb (to_string_throws amenity)) l); reflexivity.
Qed.

(** The card of a validated record: only an amenity can make it throw. *)
Lemma card_completion station :
  MapViewHardened.validateStation station = true ->
  WithTypeError.card station
  = if amenities_render station then MapViewHardened.card station
    else Throw "TypeError".
Proof.
  intros H. apply validated_shape in H.
  destruct H as (i & n & a & la & ln & av & to & co & am & st & -> & _).
  unfold WithTypeError.card, WithTypeError.amenity_section, amenities_render,
    MapViewHardened.card, amenity_section, HardenedLabels.clamp.
  cbn [id name address lat lng available total cost amenities status
       JsNumber.Number bind].
  rewrite !sanitize_completion. cbn [to_string_throws bind].
  rewrite amenity_tags_completion.
  destruct (forallb (fun amenity => negb (to_string_throws amenity)) (firstn 3 am));
    reflexivity.
Qed.

Lemma cards_of_validated (l : list ChargingStation) :
  (forall x, In x l -> MapViewHardened.validateStation x = true) ->
  (forallb amenities_render l = true ->
   exists cs, map_r WithTypeError.card l = Ok cs /\ map card_click cs = l)
  /\ (forallb amenities_render l = false ->
      map_r WithTypeError.card l = Throw "TypeError").
Proof.
  induction l as [|x l IH]; intros V.
  - split; [intros _; exists []; split; reflexivity | discriminate].
  - destruct IH as [IH1 IH2]; [intros y Hy; apply V; right; exact Hy|].
    cbn [forallb map_r].
    rewrite (card_completion x (V x (or_introl eq_refl))).
    destruct (amenities_render x); cbn [andb]; [|split; [discriminate | reflexivity]].
    destruct (hardened_card_total x (V x (or_introl eq_refl))) as [c E].
    rewrite E. cbn [bind].
    split; intros F.
    + destruct (IH1 F) as (cs & -> & M). exists (c :: cs).
      split; [reflexivity|]. cbn [map].
      rewrite (hardened_card_station _ _ E), M. reflexivity.
    + rewrite (IH2 F). reflexivity.
Qed.

(** The card list: built, one card per listed station, unless one of their
    first three amenities cannot be turned into a string. *)
Lemma cards_completion stations query :
  let shown :=
    filter (search_hit (toLowerCase (MapViewHardened.sanitizeText (VString query))))
      (filter MapViewHardened.validateStation stations) in
  (forallb amenities_render shown = true ->
   exists cs, WithTypeError.cards stations query = Ok cs /\ map card_click cs = shown)
  /\ (forallb amenities_render shown = false ->
      WithTypeError.cards stations query = Throw "TypeError").
Proof.
  intros shown. unfold WithTypeError.cards.
  rewrite hardened_search_closed. cbn [bind]. fold shown.
  apply cards_of_validated.
  intros x Hx. apply filter_In in Hx. destruct Hx as [Hx _].
  apply filter_In in Hx. apply Hx.
Qed.

End Search.

(** X5.  With an empty search box the hardened MapView lists exactly the
    validated stations of the feed, in feed order: the stations of the
    markers.  The cards are built, one per listed station, when the first
    three amenities of each of them can be turned into strings; otherwise
    building the cards throws a TypeError. *)
Theorem empty_query_lists_validated :
  forall stations : list ChargingStation,
    let validated := filter MapViewHardened.validateStation stations in
    MapViewHardened.filteredStations stations "" = Ok validated
    /\ map view_details (MapViewHardened.markers stations) = validated
    /\ (forallb amenities_render validated = true ->
        exists cs,
          WithTypeError.cards stations "" = Ok cs
          /\ map card_click cs = validated)
    /\ (forallb amenities_render validated = false ->
        WithTypeError.cards stations "" = Throw "TypeError").
Proof.
  intros stations validated.
  assert (F : forall l, filter (search_hit (toLowerCase (MapViewHardened.sanitizeText (VString "")))) l = l).
  { intros l. apply filter_all. intros x. unfold search_hit. cbn.
    rewrite includes_empty. reflexivity. }
  split; [rewrite hardened_search_closed, F; reflexivity|].
  split; [apply marker_stations|].
  pose proof (cards_completion stations "") as C. cbv zeta in C.
  rewrite F in C. exact C.
Qed.

Lemma empty_query_lists_validated_witness :
  (exists cs,
     WithTypeError.cards App.stations "" = Ok cs
     /\ map card_click cs = App.stations)
  /\ WithTypeError.cards (opaque_amenity :: App.stations) "" = Throw "TypeError".
Proof.
  destruct (empty_query_lists_validated App.stations) as (_ & _ & R & _).
  destruct (empty_query_lists_validated (opaque_amenity :: App.stations))
    as (_ & _ & _ & T).
  split; [apply R; reflexivity | apply T; reflexivity].
Defined.

(** X6.  For every feed and every query the search list of the hardened
    MapView is computed without a TypeError: it holds the validated
    stations whose lower-cased name or address contains the lower-cased,
    escaped query, in feed order, and each of them has a marker.  The
    cards are built, one per listed station, when the first three
    amenities of each listed station can be turned into strings;
    otherwise building the cards throws a TypeError. *)
Theorem hardened_list_closed_form :
  forall (stations : list ChargingStation) (query : string),
    let q := toLowerCase (MapViewHardened.sanitizeText (VString query)) in
    let shown := filter (search_hit q) (filter MapViewHardened.validateStation stations) in
    MapViewHardened.filteredStations stations query = Ok shown
    /\ (List.length shown <= List.length (MapViewHardened.markers stations))%nat
    /\ incl shown (map view_details (MapViewHardened.markers stations))
    /\ (forallb amenities_render shown = true ->
        exists cs,
          WithTypeError.cards stations query = Ok cs
          /\ map card_click cs = shown)
    /\ (forallb amenities_render shown = false ->
        WithTypeError.cards stations query = Throw "TypeError").
Proof.
  intros stations query q shown.
  split; [apply hardened_search_closed|]. split; [|split].
  - rewrite <- (length_map view_details), marker_stations.
    apply filter_length_le.
  - rewrite marker_stations. intros x Hx. apply filter_In in Hx. apply Hx.
  - apply cards_completion.
Qed.

Lemma hardened_list_closed_form_witness :
  (exists cs,
     WithTypeError.cards (opaque_amenity :: App.stations) "beach" = Ok cs
     /\ map card_click cs = [nth 2 App.stations opaque_amenity])
  /\ WithTypeError.cards (opaque_amenity :: App.stations) "garage" = Throw "TypeError".
Proof.
  destruct (hardened_list_closed_form (opaque_amenity :: App.stations) "beach")
    as (_ & _ & _ & R & _).
  destruct (hardened_list_closed_form (opaque_amenity :: App.stations) "garage")
    as (_ & _ & _ & _ & T).
  split; [apply R; reflexivity | apply T; reflexivity].
Defined.

(** ** The query text *)

Section QueryText.

(** Lower-casing leaves the characters that matter to [Dom.escape]. *)
Lemma lower_special c :
  Ascii.eqb (lower c) "&" = Ascii.eqb c "&"
  /\ Ascii.eqb (lower c) "<" = Ascii.eqb c "<"
  /\ Ascii.eqb (lower c) ">" = Ascii.eqb c ">"
  /\ Ascii.eqb (lower c) "194" = Ascii.eqb c "194"
  /\ Ascii.eqb (lower c) "160" = Ascii.eqb c "160"
  /\ Ascii.eqb "&" (lower c) = Ascii.eqb "&" c.
Proof.
  destruct c as [[] [] [] [] [] [] [] []]; vm_compute; repeat split.
Qed.

Lemma toLowerCase_append s t :
  toLowerCase (s ++ t) = toLowerCase s ++ toLowerCase t.
Proof. induction s as [|c s IH]; cbn; [|rewrite IH]; reflexivity. Qed.

(** Escaping commutes with lower-casing. *)
Lemma escape_lower s : toLowerCase (Dom.escape s) = Dom.escape (toLowerCase s).
Proof.
  induction s as [| c | c d s IHs IHd] using string_pair_ind.
  - reflexivity.
  - cbn [toLowerCase]. rewrite !escape_unfold.
    destruct (lower_special c) as (E1 & E2 & E3 & _). rewrite E1, E2, E3.
    destruct (Ascii.eqb c "&"); [reflexivity|].
    destruct (Ascii.eqb c "<"); [reflexivity|].
    destruct (Ascii.eqb c ">"); reflexivity.
  - cbn [toLowerCase] in *. rewrite (escape_unfold c), (escape_unfold (lower c)).
    destruct (lower_special c) as (E1 & E2 & E3 & E4 & _).
    destruct (lower_special d) as (_ & _ & _ & _ & E5 & _).
    rewrite E1, E2, E3, E4, E5.
    destruct (Ascii.eqb c "&"); [rewrite toLowerCase_append, IHd; reflexivity|].
    destruct (Ascii.eqb c "<"); [rewrite toLowerCase_append, IHd; reflexivity|].
    destruct (Ascii.eqb c ">"); [rewrite toLowerCase_append, IHd; reflexivity|].
    destruct (Ascii.eqb c "194" && Ascii.eqb d "160").
    + rewrite toLowerCase_append, IHs. reflexivity.
    + cbn [toLowerCase]. rewrite IHd. reflexivity.
Qed.

Lemma occurs_lower s : occurs "&" (toLowerCase s) = occurs "&" s.
Proof.
  induction s as [|c s IH]; [reflexivity|]. cbn [toLowerCase occurs].
  destruct (lower_special c) as (_ & _ & _ & _ & _ & E). rewrite E, IH. reflexivity.
Qed.

Lemma occurs_starts c sub s :
  starts_with sub s = true -> occurs c sub = true -> occurs c s = true.
Proof.
  revert s. induction sub as [|a sub IH]; intros s H O; [discriminate O|].
  destruct s as [|b s]; [discriminate H|]. cbn in H, O |- *.
  apply andb_true_iff in H. destruct H as [Hab H]. apply Ascii.eqb_eq in Hab. subst b.
  apply orb_true_iff in O. apply orb_true_iff. destruct O as [O|O]; [left; exact O|].
  right. apply (IH s H O).
Qed.

(** A character of the searched text occurs in every text that contains it. *)
Lemma occurs_includes c sub s :
  includes s sub = true -> occurs c sub = true -> occurs c s = true.
Proof.
  intros H O. induction s as [|b s IH].
  - cbn in H. rewrite orb_false_r in H. apply (occurs_starts c sub "" H O).
  - cbn [includes] in H. apply orb_true_iff in H. destruct H as [H|H].
    + apply (occurs_starts c sub _ H O).
    + cbn [occurs]. rewrite (IH H). apply orb_true_r.
Qed.

(** Escaping a text that holds [&], [<] or [>] writes an ampersand. *)
Lemma escapes_writes_ampersand s out :
  escapes s out ->
  occurs "&" s = true \/ occurs "<" s = true \/ occurs ">" s = true ->
  occurs "&" out = true.
Proof.
  induction 1 as [| ? ? _ IH | ? ? _ IH | ? ? _ IH | ? ? _ IH
                  | c ? ? Hamp Hlt Hgt _ _ IH]; intros O;
    try reflexivity.
  - destruct O as [O|[O|O]]; discriminate O.
  - cbn [occurs]. rewrite IH; [apply orb_true_r|].
    cbn [occurs] in O.
    assert (E1 : Ascii.eqb "&" c = false) by (apply Ascii.eqb_neq; congruence).
    assert (E2 : Ascii.eqb "<" c = false) by (apply Ascii.eqb_neq; congruence).
    assert (E3 : Ascii.eqb ">" c = false) by (apply Ascii.eqb_neq; congruence).
    rewrite E1, E2, E3 in O. exact O.
Qed.

End QueryText.

(** X7.  On ASCII text the search of the hardened MapView ignores the
    case of the query: for a feed whose validated names and addresses are
    ASCII, two ASCII queries with the same lower-case form give the same
    list.  (The case mapping is that of the ASCII letters, which is what
    [toLowerCase] does on such text.) *)
Theorem search_ignores_query_case :
  forall (stations : list ChargingStation) (q1 q2 : string),
    forallb ascii_station (filter MapViewHardened.validateStation stations) = true ->
    ascii_text q1 = true ->
    ascii_text q2 = true ->
    toLowerCase q1 = toLowerCase q2 ->
    MapViewHardened.filteredStations stations q1
    = MapViewHardened.filteredStations stations q2.
Proof.
  intros stations q1 q2 _ _ _ H. rewrite !hardened_search_closed, !sanitize_is_escape.
  cbn [to_string]. rewrite !escape_lower, H. reflexivity.
Qed.

Lemma search_ignores_query_case_witness :
  MapViewHardened.filteredStations App.stations "AirPort"
  = MapViewHardened.filteredStations App.stations "AIRPORT".
Proof.
  apply (search_ignores_query_case App.stations "AirPort" "AIRPORT"); reflexivity.
Defined.

(** X8.  The query is escaped before the comparison, the names and
    addresses are not: a query that holds [&], [<] or [>] lists a station
    only if its name or its address holds an ampersand.  So a station
    named [A<B] is never found by searching for [<]. *)
Theorem markup_query_needs_ampersand :
  forall (stations shown : list ChargingStation) (query : string) (station : ChargingStation),
    MapViewHardened.filteredStations stations query = Ok shown ->
    In station shown ->
    occurs "&" query = true \/ occurs "<" query = true \/ occurs ">" query = true ->
    exists text,
      (station.(name) = VString text \/ station.(address) = VString text)
      /\ occurs "&" text = true.
Proof.
  intros stations shown query station E Hin O.
  rewrite hardened_search_closed in E. injection E as <-.
  apply filter_In in Hin. destruct Hin as [Hin Hit].
  apply filter_In in Hin. destruct Hin as [_ V].
  apply validated_shape in V.
  destruct V as (i & n & a & la & ln & av & to & co & am & st & -> & _).
  unfold search_hit in Hit. cbn [name address to_string] in Hit |- *.
  assert (Q : occurs "&" (toLowerCase (MapViewHardened.sanitizeText (VString query))) = true).
  { rewrite occurs_lower, sanitize_is_escape.
    apply (escapes_writes_ampersand _ _ (escape_graph _)). exact O. }
  apply orb_true_iff in Hit. destruct Hit as [Hit|Hit].
  - exists n. split; [left; reflexivity|].
    rewrite <- occurs_lower. apply (occurs_includes _ _ _ Hit Q).
  - exists a. split; [right; reflexivity|].
    rewrite <- occurs_lower. apply (occurs_includes _ _ _ Hit Q).
Qed.

Lemma markup_query_needs_ampersand_witness :
  let lab := {| id := VString "4"; name := VString "R&amp;D Lab";
                address := VString "5 Science Park";
                lat := VNumber (of_Z 1); lng := VNumber (of_Z 2);
                available := VNumber (of_Z 1); total := VNumber (of_Z 2);
                cost := VNumber (of_Z 1); amenities := VArray [];
                status := VString "available" |} in
  MapViewHardened.filteredStations (lab :: App.stations) "&D" = Ok [lab]
  /\ exists text,
       (lab.(name) = VString text \/ lab.(address) = VString text)
       /\ occurs "&" text = true.
Proof.
  intros lab.
  assert (E : MapViewHardened.filteredStations (lab :: App.stations) "&D" = Ok [lab])
    by reflexivity.
  split; [exact E|].
  apply (markup_query_needs_ampersand (lab :: App.stations) [lab] "&D" lab E).
  - left; reflexivity.
  - left; reflexivity.
Defined.

(** ** Status presentation *)

(** X9.  The white list of the hardened [createStationIcon] never changes
    the colour: both variants give green exactly for ['available'],
    orange exactly for ['busy'], and red for every other value, string or
    not. *)
Theorem station_icon_is_failsafe :
  forall status : value,
    MapViewHardened.createStationIcon status = MapView.createStationIcon status
    /\ (MapViewHardened.createStationIcon status = "#10B981"
        <-> status = VString "available")
    /\ (MapViewHardened.createStationIcon status = "#F59E0B"
        <-> status = VString "busy")
    /\ (status <> VString "available" -> status <> VString "busy" ->
        MapViewHardened.createStationIcon status = "#EF4444").
Proof.
  intros status.
  unfold MapViewHardened.createStationIcon, MapView.createStationIcon, includes_strings.
  cbn [existsb].
  destruct (strict_eq_string status "available") eqn:A.
  - apply strict_eq_string_true in A. subst status. cbn.
    repeat split; try discriminate; try reflexivity; intros; congruence.
  - destruct (strict_eq_string status "busy") eqn:B.
    + apply strict_eq_string_true in B. subst status. cbn.
      repeat split; try discriminate; try reflexivity; intros; congruence.
    + assert (NA : status <> VString "available")
        by (intros E; apply strict_eq_string_true in E; congruence).
      assert (NB : status <> VString "busy")
        by (intros E; apply strict_eq_string_true in E; congruence).
      destruct (strict_eq_string status "offline") eqn:O; cbn [orb];
        rewrite ?A, ?B; cbn;
        repeat split; try discriminate; try reflexivity; intros; congruence.
Qed.

Lemma station_icon_is_failsafe_witness :
  MapViewHardened.createStationIcon (VString "<script>") = "#EF4444".
Proof.
  apply (proj2 (proj2 (proj2 (station_icon_is_failsafe (VString "<script>")))));
    discriminate.
Defined.

(** X10.  For a record that passed validation every presentation of its
    status is one of three consistent rows: label, badge class, marker
    colour, pill class and pill text of StationDetails, state and label of
    the charge button.  The defaults (['Unknown'], gray) never show. *)
Theorem status_presentation_rows :
  forall station : ChargingStation,
    MapViewHardened.validateStation station = true ->
    let st := station.(status) in
    (st = VString "available"
     /\ getStatusText st = "Available" /\ getStatusColor st = "text-green-600"
     /\ MapViewHardened.createStationIcon st = "#10B981"
     /\ StationDetailsGuardedView.getStatusColor st = "bg-green-100 text-green-800"
     /\ StationDetailsGuardedView.status_pill station = Ok (Child (VString "Available"))
     /\ charge_button_disabled station = false
     /\ StationDetailsGuardedView.charge_label station = "Start Charging")
    \/ (st = VString "busy"
        /\ getStatusText st = "Busy" /\ getStatusColor st = "text-orange-500"
        /\ MapViewHardened.createStationIcon st = "#F59E0B"
        /\ StationDetailsGuardedView.getStatusColor st = "bg-orange-100 text-orange-800"
        /\ StationDetailsGuardedView.status_pill station = Ok (Child (VString "Busy"))
        /\ charge_button_disabled station = true
        /\ StationDetailsGuardedView.charge_label station = "Unavailable")
    \/ (st = VString "offline"
        /\ getStatusText st = "Offline" /\ getStatusColor st = "text-red-500"
        /\ MapViewHardened.createStationIcon st = "#EF4444"
        /\ StationDetailsGuardedView.getStatusColor st = "bg-red-100 text-red-800"
        /\ StationDetailsGuardedView.status_pill station = Ok (Child (VString "Offline"))
        /\ charge_button_disabled station = true
        /\ StationDetailsGuardedView.charge_label station = "Unavailable").
Proof.
  intros station V st. subst st. apply validated_shape in V.
  destruct V as (i & n & a & la & ln & av & to & co & am & st & -> & Hin).
  cbn [status]. cbn [In] in Hin.
  destruct Hin as [<-|[<-|[<-|[]]]];
    [left | right; left | right; right]; repeat split.
Qed.

Lemma status_presentation_rows_witness :
  getStatusText (nth 1 App.stations unknown_status).(status) = "Busy"
  /\ charge_button_disabled (nth 1 App.stations unknown_status) = true.
Proof.
  destruct (status_presentation_rows (nth 1 App.stations unknown_status) eq_refl)
    as [(E & _)|[(_ & T & _ & _ & _ & _ & D & _)|(E & _)]].
  - discriminate E.
  - split; [exact T | exact D].
  - discriminate E.
Defined.

(** ** Amenities *)

(** X11.  The amenity strip of a card accounts for every amenity: it
    shows the first three, in order, and a [+n more] tag exactly when
    there are more than three, with [n] the number left out; for a value
    that is not an array the rendering throws a TypeError. *)
Theorem amenity_strip_accounts_for_all :
  forall (f : value -> content) (amenities : value),
    (forall elems,
       amenities = VArray elems ->
       exists tags more,
         amenity_section f amenities = Ok (tags, more)
         /\ tags = map f (firstn 3 elems)
         /\ List.length tags = Nat.min 3 (List.length elems)
         /\ Z.of_nat (List.length tags)
            + match more with Some n => n | None => 0 end
            = Z.of_nat (List.length elems)
         /\ (more = None <-> (List.length elems <= 3)%nat))
    /\ (isArray amenities = false ->
        amenity_section f amenities = Throw "TypeError").
Proof.
  intros f amenities. split.
  - intros elems ->. cbn [amenity_section].
    eexists _, _. split; [reflexivity|]. split; [reflexivity|].
    rewrite length_map, length_firstn.
    split; [reflexivity|].
    destruct (Z.ltb_spec 3 (Z.of_nat (List.length elems))); split; try lia;
      split; intros; try discriminate; try reflexivity; lia.
  - destruct amenities; cbn; intros H; try discriminate H; reflexivity.
Qed.

Lemma amenity_strip_accounts_for_all_witness :
  exists tags more,
    amenity_section Child
      (VArray [VString "a"; VString "b"; VString "c"; VString "d"; VString "e"])
    = Ok (tags, more)
    /\ List.length tags = 3%nat /\ more = Some 2.
Proof.
  destruct (proj1 (amenity_strip_accounts_for_all Child
                     (VArray [VString "a"; VString "b"; VString "c"; VString "d"; VString "e"]))
              _ eq_refl) as (tags & more & E & T & L & _).
  exists tags, more. split; [exact E|]. split; [exact L|].
  cbn in E. injection E as _ <-. reflexivity.
Defined.

(** ** Amenity icons *)

Section PlainText.

(** Plain text is left as it is. *)
Lemma escapes_plain s out : escapes s out -> plain_text s = true -> out = s.
Proof.
  induction 1 as [| ? ? _ IH | ? ? _ IH | ? ? _ IH | ? ? _ IH
                  | c ? ? _ _ _ _ _ IH]; intros P; try discriminate P.
  - reflexivity.
  - cbn [plain_text] in P. rewrite !andb_true_iff in P.
    rewrite IH by apply P. reflexivity.
Qed.

(** Text that is not plain does not become plain. *)
Lemma escapes_not_plain s out :
  escapes s out -> plain_text s = false -> plain_text out = false.
Proof.
  induction 1 as [| ? ? _ IH | ? ? _ IH | ? ? _ IH | ? ? _ IH
                  | c ? ? Hamp Hlt Hgt _ _ IH]; intros P; try reflexivity.
  - discriminate P.
  - cbn [plain_text] in P |- *.
    destruct (negb (Ascii.eqb c "&") && negb (Ascii.eqb c "<")
              && negb (Ascii.eqb c ">") && negb (Ascii.eqb c "194")); cbn in P |- *;
      [apply IH, P | reflexivity].
Qed.

Lemma icon_of_marked_text x : plain_text x = false -> amenity_icon x = MapPin.
Proof.
  intros P. unfold amenity_icon.
  repeat match goal with
         | |- context [String.eqb x ?l] =>
             destruct (String.eqb_spec x l) as [E|_];
             [rewrite E in P; discriminate P|]
         end.
  reflexivity.
Qed.

Lemma icon_after_escape t : amenity_icon (Dom.escape t) = amenity_icon t.
Proof.
  destruct (plain_text t) eqn:P.
  - rewrite (escapes_plain _ _ (escape_graph t) P). reflexivity.
  - rewrite (icon_of_marked_text t P).
    apply icon_of_marked_text, (escapes_not_plain _ _ (escape_graph t) P).
Qed.

End PlainText.

(** X12.  [getAmenityIcon]: the variant that sanitizes its argument
    throws a TypeError exactly when [String] throws on the argument, and
    gives an icon otherwise; on ASCII text the icon is that of the
    lower-cased text, and on every ASCII string it is the icon the raw
    variant gives, so sanitizing changes no icon; the raw variant throws a
    TypeError on every value that is not a string. *)
Theorem amenity_icon_variants :
  forall amenity : value,
    (to_string_throws amenity = true ->
     StationDetailsGuardedView.getAmenityIcon amenity = Throw "TypeError")
    /\ (to_string_throws amenity = false ->
        exists icon, StationDetailsGuardedView.getAmenityIcon amenity = Ok icon)
    /\ (to_string_throws amenity = false ->
        ascii_text (to_string amenity) = true ->
        StationDetailsGuardedView.getAmenityIcon amenity
        = Ok (amenity_icon (toLowerCase (to_string amenity))))
    /\ (forall s, amenity = VString s -> ascii_text s = true ->
        StationDetailsRawView.getAmenityIcon amenity
        = StationDetailsGuardedView.getAmenityIcon amenity)
    /\ (is_string amenity = false ->
        StationDetailsRawView.getAmenityIcon amenity = Throw "TypeError").
Proof.
  intros amenity.
  assert (G : to_string_throws amenity = false ->
              StationDetailsGuardedView.getAmenityIcon amenity
              = Ok (amenity_icon (toLowerCase (to_string amenity)))).
  { intros T. unfold StationDetailsGuardedView.getAmenityIcon.
    rewrite sanitize_completion, T. cbn [bind].
    rewrite sanitize_is_escape, escape_lower, icon_after_escape.
    reflexivity. }
  split; [|split; [|split; [|split]]].
  - intros T. unfold StationDetailsGuardedView.getAmenityIcon.
    rewrite sanitize_completion, T. reflexivity.
  - intros T. rewrite (G T). eauto.
  - intros T _. apply (G T).
  - intros s -> _. rewrite G by reflexivity. reflexivity.
  - destruct amenity; cbn; intros H; try discriminate H; reflexivity.
Qed.

Lemma amenity_icon_variants_witness :
  StationDetailsGuardedView.getAmenityIcon own_toString = Throw "TypeError"
  /\ StationDetailsGuardedView.getAmenityIcon (VString "Food Court") = Ok Coffee
  /\ StationDetailsRawView.getAmenityIcon (VString "Food Court")
     = StationDetailsGuardedView.getAmenityIcon (VString "Food Court")
  /\ StationDetailsRawView.getAmenityIcon VNull = Throw "TypeError".
Proof.
  destruct (amenity_icon_variants own_toString) as (T & _).
  destruct (amenity_icon_variants (VString "Food Court")) as (_ & _ & I & S & _).
  destruct (amenity_icon_variants VNull) as (_ & _ & _ & _ & R).
  split; [apply T; reflexivity|].
  split; [apply I; reflexivity|].
  split; [apply (S "Food Court"); reflexivity | apply R; reflexivity].
Defined.

(** ** What the hardened MapView hands to [dangerouslySetInnerHTML] *)

Section Contents.

Lemma sanitized_faithful v : faithful (Html (MapViewHardened.sanitizeText v)) v.
Proof.
  exists (MapViewHardened.sanitizeText v). split; [reflexivity|].
  rewrite sanitize_is_escape. split.
  - apply (escapes_no_markup _ _ (escape_graph _)).
  - apply escapes_rendered, escape_graph.
Qed.

Lemma map_faithful elems :
  Forall2 faithful (map (fun amenity => Html (MapViewHardened.sanitizeText amenity)) elems)
    elems.
Proof.
  induction elems as [|e elems IH]; cbn; constructor;
    [apply sanitized_faithful | exact IH].
Qed.

End Contents.

(** X13.  Every piece of markup the hardened MapView injects (name,
    address and status of a popup; name, address and amenity tags of a
    card) holds no [<] or [>], and renders as the text of the field it
    comes from: the user reads the original text, whatever the record
    holds. *)
Theorem hardened_markup_is_faithful :
  forall station : ChargingStation,
    let m := MapViewHardened.marker station in
    faithful m.(popup_name) station.(name)
    /\ faithful m.(popup_address) station.(address)
    /\ faithful m.(popup_status) station.(status)
    /\ forall c,
         MapViewHardened.card station = Ok c ->
         faithful c.(card_name) station.(name)
         /\ faithful c.(card_address) station.(address)
         /\ exists elems,
              station.(amenities) = VArray elems
              /\ Forall2 faithful c.(amenity_tags) (firstn 3 elems).
Proof.
  intros station m. subst m. cbn.
  split; [apply sanitized_faithful|]. split; [apply sanitized_faithful|].
  split; [apply sanitized_faithful|].
  intros c E. unfold MapViewHardened.card in E.
  destruct (amenities station) as [| | | | |elems|] eqn:A; cbn in E; try discriminate E.
  injection E as <-. cbn.
  split; [apply sanitized_faithful|]. split; [apply sanitized_faithful|].
  exists elems. split; [reflexivity|]. apply map_faithful.
Qed.

Lemma hardened_markup_is_faithful_witness :
  let hostile := {| id := VString "6"; name := VString "<img src=x onerror=alert(1)>";
                    address := VString "1 <b>Bold</b> St";
                    lat := VNumber (of_Z 1); lng := VNumber (of_Z 2);
                    available := VNumber (of_Z 1); total := VNumber (of_Z 2);
                    cost := VNumber (of_Z 1);
                    amenities := VArray [VString "<i>WiFi</i>"];
                    status := VString "available" |} in
  exists c,
    MapViewHardened.card hostile = Ok c
    /\ faithful c.(card_name) hostile.(name).
Proof.
  intros hostile. eexists. split; [reflexivity|].
  apply (proj2 (proj2 (proj2 (hardened_markup_is_faithful hostile)))). reflexivity.
Defined.

(** ** Local state of the hardened MapView *)

Section MapState.

Import HardenedMapState.

Variable stations : list ChargingStation.

Lemma card_station_validated query cs i c :
  MapViewHardened.cards stations query = Ok cs ->
  nth_error cs i = Some c ->
  In c.(card_click) stations
  /\ MapViewHardened.validateStation c.(card_click) = true.
Proof.
  intros E Hi.
  destruct (hardened_cards_closed stations query) as (cs' & E' & M).
  rewrite E in E'. injection E' as <-.
  assert (Hin : In (card_click c) (map card_click cs))
    by (apply in_map, (nth_error_In _ _ Hi)).
  rewrite M in Hin. apply filter_In in Hin. destruct Hin as [Hin _].
  apply filter_In in Hin. exact Hin.
Qed.

Lemma step_handed ev st s :
  snd (step stations ev st) = Some s ->
  In s stations /\ MapViewHardened.validateStation s = true.
Proof.
  destruct ev as [la lo| |text|i|i]; cbn [step]; try discriminate.
  - destruct (MapViewHardened.cards stations (searchQuery st)) as [cs|] eqn:E;
      [|discriminate].
    destruct (nth_error cs i) as [c|] eqn:Hi; [|discriminate].
    cbn. intros H. injection H as <-. apply (card_station_validated _ _ _ _ E Hi).
  - destruct (nth_error (MapViewHardened.markers stations) i) as [m|] eqn:Hi;
      [|discriminate].
    cbn. intros H. injection H as <-.
    assert (Hin : In (view_details m) (map view_details (MapViewHardened.markers stations)))
      by (apply in_map, (nth_error_In _ _ Hi)).
    rewrite marker_stations in Hin. apply filter_In in Hin. exact Hin.
Qed.

Lemma validated_coordinates s :
  MapViewHardened.validateStation s = true ->
  is_number s.(lat) = true /\ is_number s.(lng) = true.
Proof.
  intros V. apply validated_shape in V.
  destruct V as (i & n & a & la & ln & av & to & co & am & st & -> & _).
  split; reflexivity.
Qed.

Lemma step_numeric_center ev st :
  numeric_center st -> numeric_center (fst (step stations ev st)).
Proof.
  intros N. destruct ev as [la lo| |text|i|i]; cbn [step]; try exact N.
  - split; reflexivity.
  - destruct (MapViewHardened.cards stations (searchQuery st)) as [cs|] eqn:E;
      [|exact N].
    destruct (nth_error cs i) as [c|] eqn:Hi; [|exact N].
    destruct (card_station_validated _ _ _ _ E Hi) as [_ V].
    apply validated_coordinates in V. exact V.
  - destruct (nth_error (MapViewHardened.markers stations) i); exact N.
Qed.

Lemma run_numeric_center evs :
  forall st, numeric_center st -> numeric_center (run stations evs st).
Proof.
  induction evs as [|ev evs IH]; intros st N; cbn [run]; [exact N|].
  apply IH, step_numeric_center, N.
Qed.

End MapState.

(** ** The texts of valid coordinates *)

Section CoordinateTexts.

Lemma digits_value_lower s :
  forall acc, (acc * 10 ^ N.of_nat (String.length s) <= digits_value acc s)%N.
Proof.
  induction s as [|c s IH]; intros acc.
  - cbn. lia.
  - cbn [String.length digits_value]. rewrite Nat2N.inj_succ, N.pow_succ_r'.
    specialize (IH (acc * 10 + (code c - 48))%N). nia.
Qed.

Lemma leading_digit c : is_digit c = true -> c <> "0"%char -> (1 <= code c - 48)%N.
Proof.
  intros H Hz. apply digit_cases in H. cbn [In] in H.
  repeat (destruct H as [<- | H]; [try congruence; vm_compute; discriminate|]).
  contradiction.
Qed.

Lemma digits_are_unreserved s : all_digits s = true -> all_unreserved s = true.
Proof.
  induction s as [|c s IH]; [reflexivity|]. cbn. intros H.
  apply andb_true_iff in H. destruct H as [Hc Hs].
  rewrite (IH Hs), andb_true_r. unfold unreserved. rewrite Hc.
  rewrite orb_true_r. reflexivity.
Qed.

Lemma all_unreserved_app s t :
  all_unreserved (s ++ t) = all_unreserved s && all_unreserved t.
Proof.
  induction s as [|c s IH]; cbn; [reflexivity|]. rewrite IH, andb_assoc. reflexivity.
Qed.

Lemma encode_unreserved s : all_unreserved s = true -> encodeURIComponent s = s.
Proof.
  induction s as [|c s IH]; [reflexivity|]. cbn. intros H.
  apply andb_true_iff in H. destruct H as [Hc Hs]. rewrite Hc, (IH Hs). reflexivity.
Qed.

Local Open Scope Q_scope.

(** A number whose shortest digits put the decimal point after [n] digits
    is at least [10^(n-1)]. *)
Lemma shortest_magnitude m e s k n :
  m <> 0%N -> shortest m e = (s, k, n) ->
  (10 # 1) ^ (n - 1) <= inject_Z (Z.of_N m) * (10 # 1) ^ e.
Proof.
  intros Hm E.
  destruct (shortest_spec m e) as (s' & j & E' & D & _).
  rewrite E in E'. injection E' as -> -> ->.
  destruct (shortest_value m s' j D) as [Hd Hv].
  destruct s' as [|c0 t].
  { exfalso. apply Hm. rewrite <- Hv. reflexivity. }
  assert (Hz : c0 <> "0"%char) by (apply (digits_of_N_head m c0 _ Hm D)).
  cbn [all_digits] in Hd. apply andb_true_iff in Hd. destruct Hd as [Hc0 Ht].
  assert (L : (10 ^ N.of_nat (String.length t) <= digits_value 0 (String c0 t))%N).
  { cbn [digits_value]. pose proof (leading_digit c0 Hc0 Hz) as L1.
    pose proof (digits_value_lower t (0 * 10 + (code c0 - 48))%N) as L2.
    nia. }
  rewrite <- (value_scaled _ m j e Hv).
  cbn [String.length].
  replace (e + Z.of_nat j + Z.of_nat (S (String.length t)) - 1)%Z
    with (Z.of_nat (String.length t) + (e + Z.of_nat j))%Z by lia.
  rewrite Qpower_plus by discriminate.
  apply Qmult_le_compat_r; [|apply Qpower_0_le; discriminate].
  rewrite <- (Zpower_Qpower 10) by lia. rewrite <- Zle_Qle.
  apply N2Z.inj_le in L. rewrite N2Z.inj_pow, nat_N_Z in L. exact L.
Qed.

Lemma small_exponent n :
  (10 # 1) ^ (n - 1) <= 180 # 1 -> (n <= 21)%Z.
Proof.
  intros H. destruct (Z.le_gt_cases n 21) as [L|G]; [exact L|]. exfalso.
  assert (P : (10 # 1) ^ 21 <= (10 # 1) ^ (n - 1))
    by (apply Qpower_le_compat_l; [lia | discriminate]).
  pose proof (Qle_trans _ _ _ P H) as C. vm_compute in C. apply C. reflexivity.
Qed.

(** The text of a positive number up to 180 holds digits, a point, an [e]
    and a minus sign only. *)
Lemma positive_text_unreserved m e :
  m <> 0%N ->
  inject_Z (Z.of_N m) * (10 # 1) ^ e <= 180 # 1 ->
  all_unreserved (positive_to_string m e) = true.
Proof.
  intros Hm B.
  destruct (shortest_spec m e) as (s & j & E & D & _).
  destruct (shortest_value m s j D) as [Hd _].
  pose proof (shortest_magnitude m e _ _ _ Hm E) as M.
  apply (fun M => small_exponent _ (Qle_trans _ _ _ M B)) in M.
  unfold positive_to_string. rewrite E.
  set (k := Z.of_nat (String.length s)) in *.
  set (n := (e + Z.of_nat j + k)%Z) in *.
  destruct (all_digits_take_drop (Z.to_nat n) s Hd) as [T1 D1].
  destruct (all_digits_take_drop 1 s Hd) as [T2 D2].
  pose proof (digits_are_unreserved _ Hd) as U.
  destruct ((k <=? n)%Z && (n <=? 21)%Z).
  { rewrite all_unreserved_app, U. apply digits_are_unreserved, all_digits_zeros. }
  destruct ((0 <? n)%Z && (n <=? 21)%Z) eqn:C2.
  { rewrite !all_unreserved_app, (digits_are_unreserved _ T1),
      (digits_are_unreserved _ D1). reflexivity. }
  destruct ((-6 <? n)%Z && (n <=? 0)%Z) eqn:C3.
  { cbn [append all_unreserved]. rewrite all_unreserved_app, U.
    rewrite (digits_are_unreserved _ (all_digits_zeros _)). reflexivity. }
  assert (N1 : (n - 1 <? 0)%Z = true).
  { apply Z.ltb_lt. apply andb_false_iff in C2, C3.
    destruct C2 as [C2|C2]; [apply Z.ltb_ge in C2 | apply Z.leb_gt in C2];
      destruct C3 as [C3|C3]; [apply Z.ltb_ge in C3 | apply Z.leb_gt in C3
                              | apply Z.ltb_ge in C3 | apply Z.leb_gt in C3]; lia. }
  rewrite N1.
  pose proof (digits_are_unreserved _ (digits_of_N_digits (Z.abs_N (n - 1)))) as UE.
  destruct (k =? 1)%Z.
  - rewrite all_unreserved_app, U. cbn [append all_unreserved]. rewrite UE. reflexivity.
  - rewrite !all_unreserved_app, (digits_are_unreserved _ T2),
      (digits_are_unreserved _ D2).
    cbn [append all_unreserved]. rewrite UE. reflexivity.
Qed.

Lemma within_magnitude lo hi neg m e :
  (-180 <= lo)%Z -> (hi <= 180)%Z -> within lo hi (Finite neg m e) ->
  inject_Z (Z.of_N m) * (10 # 1) ^ e <= 180 # 1.
Proof.
  intros Hlo Hhi [W1 W2]. unfold to_Q in W1, W2. destruct neg.
  - apply Qopp_le_compat in W1. rewrite Qopp_involutive in W1.
    eapply Qle_trans; [exact W1|].
    rewrite <- inject_Z_opp. change (180 # 1) with (inject_Z 180).
    rewrite <- Zle_Qle. lia.
  - eapply Qle_trans; [exact W2|]. change (180 # 1) with (inject_Z 180).
    rewrite <- Zle_Qle. lia.
Qed.

(** Percent-encoding leaves the text of a valid coordinate as it is. *)
Lemma coordinate_text_unencoded lo hi x :
  (-180 <= lo)%Z -> (hi <= 180)%Z -> within lo hi x ->
  encodeURIComponent (number_to_string x) = number_to_string x.
Proof.
  intros Hlo Hhi W. apply encode_unreserved.
  destruct x as [| |neg m e]; try contradiction.
  cbn [number_to_string]. destruct (N.eqb_spec m 0) as [_|Hm]; [reflexivity|].
  rewrite all_unreserved_app,
    (positive_text_unreserved m e Hm (within_magnitude lo hi neg m e Hlo Hhi W)).
  destruct neg; reflexivity.
Qed.

End CoordinateTexts.

(** X14.  In the hardened MapView the map centre is a pair of numbers
    after every sequence of events: it starts as one, a geolocation fix
    writes numbers, and a card click writes the coordinates of a station
    that passed validation. *)
Theorem map_center_stays_numeric :
  forall (stations : list ChargingStation) (evs : list HardenedMapState.event),
    numeric_center (HardenedMapState.run stations evs HardenedMapState.initial)
    /\ forall st,
         numeric_center st -> numeric_center (HardenedMapState.run stations evs st).
Proof.
  intros stations evs. split.
  - apply run_numeric_center. split; reflexivity.
  - apply run_numeric_center.
Qed.

Lemma map_center_stays_numeric_witness :
  numeric_center
    (HardenedMapState.run (unknown_status :: App.stations)
       [HardenedMapState.SearchInput "beach"; HardenedMapState.CardClick 0;
        HardenedMapState.LocationFailed]
       (fst (HardenedMapState.step App.stations
               (HardenedMapState.LocationResolved (of_Z 40) (of_Z (-74)))
               HardenedMapState.initial))).
Proof.
  apply (proj2 (map_center_stays_numeric (unknown_status :: App.stations) _)).
  split; reflexivity.
Defined.

(** X15.  Every station the hardened MapView hands to [onStationSelect],
    from a card or from a marker popup, is a record of the feed that
    passed validation and has a marker; a card click also centres the map
    on that station. *)
Theorem handed_stations_are_validated :
  forall (stations : list ChargingStation) (ev : HardenedMapState.event)
         (st : HardenedMapState.MapViewState) (s : ChargingStation),
    snd (HardenedMapState.step stations ev st) = Some s ->
    In s stations
    /\ MapViewHardened.validateStation s = true
    /\ In s (map view_details (MapViewHardened.markers stations))
    /\ (forall i, ev = HardenedMapState.CardClick i ->
        HardenedMapState.mapCenter (fst (HardenedMapState.step stations ev st))
        = (s.(lat), s.(lng))).
Proof.
  intros stations ev st s H.
  destruct (step_handed stations ev st s H) as [Hin V].
  split; [exact Hin|]. split; [exact V|]. split.
  - rewrite marker_stations. apply filter_In. split; assumption.
  - intros i ->. cbn [HardenedMapState.step] in H |- *.
    destruct (MapViewHardened.cards stations (HardenedMapState.searchQuery st)) as [cs|];
      [|discriminate H].
    destruct (nth_error cs i) as [c|]; [|discriminate H].
    cbn in H |- *. injection H as <-. reflexivity.
Qed.

Lemma handed_stations_are_validated_witness :
  snd (HardenedMapState.step (unknown_status :: App.stations)
         (HardenedMapState.CardClick 0) HardenedMapState.initial)
  = Some (nth 0 App.stations unknown_status)
  /\ MapViewHardened.validateStation (nth 0 App.stations unknown_status) = true.
Proof.
  assert (H : snd (HardenedMapState.step (unknown_status :: App.stations)
                     (HardenedMapState.CardClick 0) HardenedMapState.initial)
              = Some (nth 0 App.stations unknown_status)) by reflexivity.
  split; [exact H|].
  exact (proj1 (proj2 (handed_stations_are_validated _ _ _ _ H))).
Defined.

(** ** Displayed counts *)

Section Clamp.

Lemma clamp_unfold x :
  JsNumber.Math_max [of_Z 0; JsNumber.or_else x (of_Z 0)]
  = let y := JsNumber.or_else x (of_Z 0) in
    if ltb (of_Z 0) y then y else of_Z 0.
Proof.
  unfold JsNumber.Math_max, JsNumber.or_else.
  destruct (JsNumber.truthy x) eqn:T.
  - destruct x as [| neg | neg m e]; try discriminate T.
    + destruct neg; reflexivity.
    + cbn [JsNumber.truthy] in T. apply negb_true_iff in T.
      cbn. unfold JsNumber.max_step, JsNumber.is_positive_zero.
      cbn. rewrite andb_false_r. reflexivity.
  - reflexivity.
Qed.

Lemma ltb_zero_asym y : ltb (of_Z 0) y = true -> ltb y (of_Z 0) = false.
Proof.
  destruct y as [|neg|neg m e]; cbn; try discriminate.
  - destruct neg; [discriminate | reflexivity].
  - rewrite Z.min_comm. intros H. apply Z.ltb_lt in H. apply Z.ltb_ge. lia.
Qed.

(** [Number] throws where [String] does. *)
Lemma number_completion v :
  (to_string_throws v = true -> JsNumber.Number v = Throw "TypeError")
  /\ (to_string_throws v = false -> exists x, JsNumber.Number v = Ok x).
Proof.
  destruct v as [| | [] | n | s | elems | fields];
    cbn [JsNumber.Number]; try (split; [discriminate | eauto]);
    unfold ToString;
    match goal with |- context [to_string_throws ?a] => destruct (to_string_throws a) end;
    cbn [bind]; (split; [intros _; reflexivity | discriminate])
    || (split; [discriminate | eauto]).
Qed.

(** The clamp of a number. *)
Lemma clamped_number x :
  let r := JsNumber.Math_max [of_Z 0; JsNumber.or_else x (of_Z 0)] in
  (ltb (of_Z 0) x = true -> r = x)
  /\ (ltb (of_Z 0) x = false -> r = of_Z 0)
  /\ isNaN r = false
  /\ ltb r (of_Z 0) = false
  /\ starts_with "-" (number_to_string r) = false
  /\ number_to_string r <> "NaN".
Proof.
  intros r. subst r. rewrite clamp_unfold.
  assert (Y : forall y, y = JsNumber.or_else x (of_Z 0) ->
                (ltb (of_Z 0) y = true -> y = x)
                /\ (ltb (of_Z 0) x = true -> y = x)).
  { intros y ->. unfold JsNumber.or_else.
    destruct x as [|neg|neg m e]; cbn [JsNumber.truthy].
    - split; discriminate.
    - split; reflexivity.
    - destruct (N.eqb_spec m 0) as [->|Hm]; cbn [negb].
      + split; [discriminate|]. cbn. unfold scaled. cbn.
        destruct neg; discriminate.
      + split; reflexivity. }
  set (y := JsNumber.or_else x (of_Z 0)) in *.
  destruct (Y y eq_refl) as [Y1 Y2]. cbv zeta.
  assert (T : forall t, ltb (of_Z 0) t = true ->
                isNaN t = false /\ starts_with "-" (number_to_string t) = false
                /\ number_to_string t <> "NaN").
  { intros [|neg|neg m e]; cbn [ltb]; try discriminate.
    - destruct neg; [discriminate|]. intros _. repeat split. discriminate.
    - intros H. split; [reflexivity|].
      assert (Hm : m <> 0%N).
      { intros ->. cbn in H. unfold scaled in H. cbn in H. destruct neg; discriminate H. }
      assert (Hn : neg = false).
      { destruct neg; [|reflexivity]. exfalso. apply Z.ltb_lt in H.
        unfold scaled in H. cbn in H.
        assert (0 <= 10 ^ (e - Z.min 0 e)) by (apply Z.pow_nonneg; lia).
        nia. }
      subst neg. cbn [number_to_string].
      apply N.eqb_neq in Hm. rewrite Hm. cbn [append].
      apply N.eqb_neq in Hm.
      destruct (parse_positive m e Hm) as (_ & _ & _ & _ & (c & rest & E & Hc) & _).
      rewrite E. apply digit_cases in Hc. cbn [In] in Hc.
      repeat (destruct Hc as [<- | Hc]; [split; [reflexivity | discriminate]|]).
      contradiction. }
  destruct (ltb (of_Z 0) y) eqn:L.
  - destruct (T y L) as (T1 & T2 & T3).
    split; [intros Hx; apply (Y2 Hx)|].
    split; [intros Hx; rewrite (Y1 eq_refl) in L; congruence|].
    split; [exact T1|]. split; [apply ltb_zero_asym, L|].
    split; [exact T2 | exact T3].
  - split; [intros Hx; rewrite (Y2 Hx) in L; congruence|].
    split; [reflexivity|]. split; [reflexivity|]. split; [reflexivity|].
    split; [reflexivity | discriminate].
Qed.

End Clamp.

(** X16.  [Math.max(0, Number(x) || 0)], the count shown for [available]
    and [total], throws a TypeError exactly when [Number(x)] does, that is
    when [String(x)] does, and never for a number.  Otherwise it is
    [Number(x)] when that is positive (infinity included), and 0 in every
    other case (zero, a negative number, NaN): it is never NaN and never
    negative, so its text is never "NaN" and never starts with a minus
    sign. *)
Theorem displayed_counts_are_clamped :
  forall v : value,
    (to_string_throws v = true -> HardenedLabels.clamp v = Throw "TypeError")
    /\ (forall n, v = VNumber n ->
        to_string_throws v = false /\ JsNumber.Number v = Ok n)
    /\ (to_string_throws v = false ->
        exists x r,
          JsNumber.Number v = Ok x
          /\ HardenedLabels.clamp v = Ok r
          /\ (ltb (of_Z 0) x = true -> r = x)
          /\ (ltb (of_Z 0) x = false -> r = of_Z 0)
          /\ isNaN r = false
          /\ ltb r (of_Z 0) = false
          /\ starts_with "-" (number_to_string r) = false
          /\ number_to_string r <> "NaN").
Proof.
  intros v. destruct (number_completion v) as [N1 N2].
  split; [|split].
  - intros T. unfold HardenedLabels.clamp. rewrite (N1 T). reflexivity.
  - intros n ->. split; reflexivity.
  - intros T. destruct (N2 T) as [x E].
    exists x, (JsNumber.Math_max [of_Z 0; JsNumber.or_else x (of_Z 0)]).
    split; [exact E|].
    split; [unfold HardenedLabels.clamp; rewrite E; reflexivity|].
    apply clamped_number.
Qed.

Lemma displayed_counts_are_clamped_witness :
  HardenedLabels.clamp own_toString = Throw "TypeError"
  /\ HardenedLabels.clamp (VNumber (of_Z 3)) = Ok (of_Z 3)
  /\ HardenedLabels.clamp (VNumber (of_Z (-1))) = Ok (of_Z 0)
  /\ HardenedLabels.clamp (VBool true) = Ok (of_Z 1)
  /\ HardenedLabels.clamp (VString "0x10") = Ok (of_Z 16)
  /\ HardenedLabels.clamp (VString "twelve") = Ok (of_Z 0).
Proof.
  destruct (displayed_counts_are_clamped own_toString) as (T & _).
  split; [apply T; reflexivity|].
  assert (P : forall v x, JsNumber.Number v = Ok x -> to_string_throws v = false ->
                ltb (of_Z 0) x = true -> HardenedLabels.clamp v = Ok x).
  { intros v x E Tv L.
    destruct (displayed_counts_are_clamped v) as (_ & _ & R).
    destruct (R Tv) as (x' & r & E' & C & Pos & _).
    rewrite E in E'. injection E' as <-. rewrite C, (Pos L). reflexivity. }
  assert (Z : forall v x, JsNumber.Number v = Ok x -> to_string_throws v = false ->
                ltb (of_Z 0) x = false -> HardenedLabels.clamp v = Ok (of_Z 0)).
  { intros v x E Tv L.
    destruct (displayed_counts_are_clamped v) as (_ & _ & R).
    destruct (R Tv) as (x' & r & E' & C & _ & Zero & _).
    rewrite E in E'. injection E' as <-. rewrite C, (Zero L). reflexivity. }
  split; [apply (P (VNumber (of_Z 3)) (of_Z 3)); reflexivity|].
  split; [apply (Z (VNumber (of_Z (-1))) (of_Z (-1))); reflexivity|].
  split; [apply (P (VBool true) (of_Z 1)); reflexivity|].
  split; [apply (P (VString "0x10") (of_Z 16)); reflexivity|].
  apply (Z (VString "twelve") NaN); reflexivity.
Defined.

(** ** Coordinates that are numbers *)

(** X17.  [parseFloat(String(x))] gives back [x] for every number [x]:
    the same value (the sign of zero apart) and the same text.  So the
    parsing step of [handleGetDirections] changes nothing when the
    coordinates are numbers. *)
Theorem reparsing_a_number_is_identity :
  forall (x : number) (station : ChargingStation),
    same_value (parseFloat (number_to_string x)) x
    /\ number_to_string (parseFloat (number_to_string x)) = number_to_string x
    /\ (station.(lat) = VNumber x ->
        same_value (parseFloat (to_string station.(lat))) x)
    /\ (station.(lng) = VNumber x ->
        same_value (parseFloat (to_string station.(lng))) x).
Proof.
  intros x station. destruct (parseFloat_number_to_string x) as [V T].
  split; [exact V|]. split; [exact T|].
  split; intros ->; exact V.
Qed.

Lemma reparsing_a_number_is_identity_witness :
  same_value (parseFloat (to_string far_north.(lng))) (Finite true 8019 (-2)).
Proof.
  exact (proj2 (proj2 (proj2 (reparsing_a_number_is_identity
                                (Finite true 8019 (-2)) far_north))) eq_refl).
Defined.

(** X18.  For coordinates that are numbers in the valid ranges the
    guarded [handleGetDirections] opens the very URL the raw variant
    opens, [https://maps.google.com/?q=<lat>,<lng>] with the plain texts
    of the two numbers: there percent-encoding changes no character. *)
Theorem guard_keeps_valid_urls :
  forall (station : ChargingStation) (x y : number),
    station.(lat) = VNumber x -> station.(lng) = VNumber y ->
    within (-90) 90 x -> within (-180) 180 y ->
    StationDetailsGuarded.handleGetDirections station
    = [WindowOpen ("https://maps.google.com/?q="
                   ++ number_to_string x ++ "," ++ number_to_string y) "_blank"]
    /\ StationDetailsGuarded.handleGetDirections station
       = StationDetailsRaw.handleGetDirections station.
Proof.
  intros station x y Hx Hy Wx Wy.
  assert (G : StationDetailsGuarded.handleGetDirections station
              = [WindowOpen ("https://maps.google.com/?q="
                             ++ number_to_string x ++ "," ++ number_to_string y)
                   "_blank"]).
  { destruct (numeric_texts station x y Hx Hy) as [Tx Ty].
    rewrite guarded_opens.
    - rewrite Tx, Ty.
      rewrite (coordinate_text_unencoded (-90) 90 x) by (try lia; exact Wx).
      rewrite (coordinate_text_unencoded (-180) 180 y) by (try lia; exact Wy).
      reflexivity.
    - apply invalid_coordinates_false.
      apply (proj2 (numeric_valid station x y Hx Hy)). auto. }
  split; [exact G|]. rewrite G.
  unfold StationDetailsRaw.handleGetDirections. rewrite Hx, Hy. reflexivity.
Qed.

Lemma guard_keeps_valid_urls_witness :
  StationDetailsGuarded.handleGetDirections (nth 0 App.stations far_north)
  = StationDetailsRaw.handleGetDirections (nth 0 App.stations far_north).
Proof.
  refine (proj2 (guard_keeps_valid_urls (nth 0 App.stations far_north)
                   (Finite false 257617 (-4)) (Finite true 801918 (-4))
                   eq_refl eq_refl _ _)).
  - split; vm_compute; discriminate.
  - split; vm_compute; discriminate.
Defined.

(** ** The two MapView variants on a well-formed feed *)

Section Variants.

Lemma original_matches_hit query station :
  MapViewHardened.validateStation station = true ->
  MapView.matches query station = Ok (search_hit query station).
Proof.
  intros H. apply validated_shape in H.
  destruct H as (i & n & a & la & ln & av & to & co & am & st & -> & _).
  unfold MapView.matches, search_hit. cbn.
  destruct (includes (toLowerCase n) query); reflexivity.
Qed.

Lemma filter_validated stations :
  Forall (fun s => MapViewHardened.validateStation s = true) stations ->
  filter MapViewHardened.validateStation stations = stations.
Proof.
  induction 1 as [|s l Hs _ IH]; cbn; [reflexivity|]. rewrite Hs, IH. reflexivity.
Qed.

End Variants.

(** X19.  On a feed whose records all pass validation the two MapView
    variants show the same stations: the same markers, and, for every
    query without [&], [<], [>] and without the byte 194 (so without
    U+00A0), the same list.  Validation and sanitization change nothing
    for well-formed data and plain queries. *)
Theorem variants_agree_on_validated_feed :
  forall (stations : list ChargingStation) (query : string),
    Forall (fun s => MapViewHardened.validateStation s = true) stations ->
    map view_details (MapView.markers stations)
    = map view_details (MapViewHardened.markers stations)
    /\ (plain_text query = true ->
        MapView.filteredStations stations query
        = MapViewHardened.filteredStations stations query).
Proof.
  intros stations query F. split.
  - rewrite marker_stations, (filter_validated stations F).
    unfold MapView.markers. rewrite map_map. cbn. apply map_id.
  - intros P. rewrite hardened_search_closed, (filter_validated stations F).
    rewrite sanitize_is_escape. cbn [to_string].
    rewrite (escapes_plain _ _ (escape_graph query) P).
    unfold MapView.filteredStations. apply filter_r_ok.
    intros x Hx. apply original_matches_hit.
    apply (proj1 (Forall_forall _ _) F x Hx).
Qed.

Lemma variants_agree_on_validated_feed_witness :
  MapView.filteredStations App.stations "Miami Beach"
  = MapViewHardened.filteredStations App.stations "Miami Beach".
Proof.
  assert (F : Forall (fun s => MapViewHardened.validateStation s = true) App.stations)
    by (repeat constructor).
  apply (proj2 (variants_agree_on_validated_feed App.stations "Miami Beach" F)).
  reflexivity.
Defined.
